(** * EWCS database migration scripts

    A shallow embedding of the three one-shot migration scripts

      - [migrate_cs125_current.py]   (drop column [cs125_current] of [ewcs_data])
      - [migrate_power_save_mode.py] (drop column [power_save_mode] of [ewcs_data])
      - [migrate_images.py]          (move the FITS rows of [ewcs_images] to [oasc_images])

    The scripts are straight-line Python driving one [sqlite3] connection
    inside a [try]/[except].  They are embedded in a state-and-exception
    monad over a [world] that holds the database file, the connection's view
    of it, the transaction flag, the binding of the local variable [conn] and
    the chronological list of API calls and printed lines.

    The SQL statements the scripts send are embedded as a small statement
    type, with an executable semantics for the part of SQLite they use. *)

From Stdlib Require Import ZArith Ascii String.
From stdpp Require Import gmap strings list fin_maps.

(** ** Values, columns, tables *)

(** The five storage classes of SQLite.  A REAL is carried as an opaque
    payload: no script computes with a cell. *)
Inductive value :=
| VNull
| VInt (z : Z)
| VReal (payload : Z)
| VText (s : string)
| VBlob (s : string).

Global Instance value_eq_dec : EqDecision value.
Proof. solve_decision. Defined.

(** The DEFAULT clause of a column. *)
Inductive dflt :=
| NoDefault
| Literal (v : value)
| CurrentTimestamp.

Global Instance dflt_eq_dec : EqDecision dflt.
Proof. solve_decision. Defined.

(** A column as [PRAGMA table_info] reports it: name, declared type,
    NOT NULL flag, default, primary-key flag.  The scripts read field 1,
    the name. *)
Record column := Column {
  cname : string;
  ctype : string;
  cnotnull : bool;
  cdflt : dflt;
  cpk : bool
}.

Global Instance column_eq_dec : EqDecision column.
Proof. solve_decision. Defined.

Abbreviation row := (list value).

Record table := Table {
  cols : list column;
  rows : list row
}.

Global Instance table_eq_dec : EqDecision table.
Proof. solve_decision. Defined.

(** A database: its tables by name, and its indexes by name, each index on
    one column of one table. *)
Record db := Db {
  tables : gmap string table;
  indexes : gmap string (string * string)
}.

Global Instance db_eq_dec : EqDecision db.
Proof. solve_decision. Defined.

Definition names (cs : list column) : list string := cname <$> cs.

(** Position of the column called [n]. *)
Definition col_index (n : string) (cs : list column) : option nat :=
  fst <$> list_find (λ c, cname c = n) cs.

(** Position of [n] in a list of names. *)
Definition name_index (n : string) (ns : list string) : option nat :=
  fst <$> list_find (λ m, m = n) ns.

(** A cell of a row; a row shorter than its schema reads as NULL. *)
Definition cell (r : row) (i : nat) : value := default VNull (r !! i).

(** The value a row holds in the column called [n]. *)
Definition field (cs : list column) (r : row) (n : string) : option value :=
  cell r <$> col_index n cs.

(** ** Text matching: [LIKE '%.fits'] *)

Definition lower_ascii (a : ascii) : ascii :=
  let n := nat_of_ascii a in
  if Nat.leb 65 n && Nat.leb n 90 then ascii_of_nat (n + 32) else a.

Fixpoint lower (s : string) : string :=
  match s with
  | EmptyString => EmptyString
  | String a r => String (lower_ascii a) (lower r)
  end.

Fixpoint ends_with (suffix s : string) : bool :=
  if String.eqb s suffix then true
  else match s with
       | EmptyString => false
       | String _ r => ends_with suffix r
       end.

(** A text as LIKE reads it: up to its first NUL character. *)
Fixpoint until_nul (s : string) : string :=
  match s with
  | EmptyString => EmptyString
  | String a r => if Ascii.eqb a zero then EmptyString else String a (until_nul r)
  end.

(** [v LIKE '%.fits']: LIKE compares text without regard to ASCII case and
    reads it up to its first NUL character; NULL matches nothing, a BLOB
    matches nothing (the engine as it is commonly built), and the text of a
    number has no letter [s]. *)
Definition like_fits (v : value) : bool :=
  match v with
  | VText s => ends_with ".fits" (lower (until_nul s))
  | VNull | VInt _ | VReal _ | VBlob _ => false
  end.

(** ** Exceptions *)

Inductive exn :=
| CannotOpen                       (* sqlite3.connect: unable to open database file *)
| NoSuchTable (t : string)
| NoSuchColumn (c : string)
| AlreadyExists (t : string)
| ArityMismatch
| NotNullFailed (c : string)
| UniqueFailed
| DatatypeMismatch
| NestedTransaction
| EngineFault (call : nat)         (* any other failure of the engine: I/O, lock, full disk *)
| UnboundLocalError (v : string)
| EOFError.

Global Instance exn_eq_dec : EqDecision exn.
Proof. solve_decision. Defined.

(** ** Statements *)

(** [WHERE] clauses of the scripts. *)
Inductive pred :=
| LikeFits (col : string).          (* col LIKE '%.fits' *)

Global Instance pred_eq_dec : EqDecision pred.
Proof. solve_decision. Defined.

Inductive stmt :=
| Begin                                            (* BEGIN TRANSACTION *)
| PragmaTableInfo (t : string)                     (* PRAGMA table_info(t) *)
| CreateTable (t : string) (cs : list column)      (* CREATE TABLE t (...) *)
| InsertSelect (target : string) (tcols : list string)
               (source : string) (scols : list string)
               (w : option pred)                   (* INSERT INTO target (tcols) SELECT scols FROM source [WHERE w] *)
| DropTable (t : string)                           (* DROP TABLE t *)
| RenameTable (old new : string)                   (* ALTER TABLE old RENAME TO new *)
| CreateIndexIfNotExists (i t c : string)          (* CREATE INDEX IF NOT EXISTS i ON t(c) *)
| SelectCount (t : string) (w : option pred)       (* SELECT COUNT( * ) FROM t [WHERE w] *)
| DeleteWhere (t : string) (w : pred).             (* DELETE FROM t WHERE w *)

Global Instance stmt_eq_dec : EqDecision stmt.
Proof. solve_decision. Defined.

(** What a cursor holds after a statement: the rows of a PRAGMA, the
    single number of a COUNT, or [rowcount]. *)
Inductive result :=
| Columns (cs : list column)
| Count (n : nat)
| Rowcount (n : Z).

(** ** The engine

    SQLite as far as the scripts use it.  Identifiers are compared as
    written (the scripts and the tables they touch spell them in lower
    case).  A value is stored as it is given: conversions by column
    affinity are not modelled.  Of the constraints, NOT NULL and the integer
    primary key (the rowid) are checked; every other way a call can fail
    (I/O errors, locks, other constraints) is left to the environment of
    the run.  A database holds tables and indexes: views, triggers and the
    engine's own tables (the bookkeeping table of AUTOINCREMENT among them)
    are not modelled.  Where a property depends on one of these limits, its
    statement says so in its hypotheses. *)

Definition default_value (clock : string) (c : column) : value :=
  match cdflt c with
  | NoDefault => VNull
  | Literal v => v
  | CurrentTimestamp => VText clock
  end.

(** The row to store in a table with columns [cs] for a tuple of values
    given for the columns [tcols]: a listed column takes its value, an
    unlisted one its default. *)
Definition build_row (clock : string) (cs : list column) (tcols : list string)
    (tuple : list value) : row :=
  (λ c, match name_index (cname c) tcols with
        | Some k => cell tuple k
        | None => default_value clock c
        end) <$> cs.

(** The column that aliases the rowid: the [INTEGER PRIMARY KEY]. *)
Definition rowid_col (cs : list column) : option nat :=
  fst <$> list_find (λ c, cpk c = true ∧ lower (ctype c) = "integer") cs.

Definition keys (k : nat) (rs : list row) : list Z :=
  omap (λ r, match cell r k with VInt z => Some z | _ => None end) rs.

(** A key for a row inserted with a NULL key: one more than the largest
    key in use, 1 in an empty table.  (Keys are unbounded here; at the
    largest 64-bit key, and under AUTOINCREMENT, the engine chooses
    otherwise.  Which fresh key is chosen is immaterial below.) *)
Definition fresh_key (k : nat) (rs : list row) : Z :=
  match keys k rs with
  | [] => 1
  | z :: zs => foldr Z.max z zs + 1
  end%Z.

Definition null_violation (cs : list column) (r : row) : option string :=
  (λ p, cname (snd p).1) <$>
    list_find (λ cv : column * value, cnotnull cv.1 = true ∧ cv.2 = VNull) (zip cs r).

(** Storing one row next to the rows [rs] already in the table: the key
    is assigned or checked, then NOT NULL is checked. *)
Definition store_row (cs : list column) (rs : list row) (r : row) : exn + row :=
  let keyed :=
    match rowid_col cs with
    | None => inr r
    | Some k =>
        match cell r k with
        | VNull => inr (<[k := VInt (fresh_key k rs)]> r)
        | VInt z => if bool_decide (z ∈ keys k rs) then inl UniqueFailed else inr r
        | _ => inl DatatypeMismatch
        end
    end in
  match keyed with
  | inl e => inl e
  | inr r' =>
      match null_violation cs r' with
      | Some c => inl (NotNullFailed c)
      | None => inr r'
      end
  end.

Fixpoint store_rows (cs : list column) (rs : list row) (new : list row)
    : exn + list row :=
  match new with
  | [] => inr rs
  | r :: rest =>
      match store_row cs rs r with
      | inl e => inl e
      | inr r' => store_rows cs (rs ++ [r']) rest
      end
  end.

(** Resolving a list of column names against a schema. *)
Fixpoint resolve (cs : list column) (ns : list string) : exn + list nat :=
  match ns with
  | [] => inr []
  | n :: rest =>
      match col_index n cs with
      | None => inl (NoSuchColumn n)
      | Some i =>
          match resolve cs rest with
          | inl e => inl e
          | inr ix => inr (i :: ix)
          end
      end
  end.

(** A WHERE clause as a test on rows, once its column is resolved. *)
Definition where_test (cs : list column) (w : option pred) : exn + (row → bool) :=
  match w with
  | None => inr (λ _, true)
  | Some (LikeFits c) =>
      match col_index c cs with
      | None => inl (NoSuchColumn c)
      | Some i => inr (λ r, like_fits (cell r i))
      end
  end.

Definition project (ix : list nat) (r : row) : list value := cell r <$> ix.

Definition create_table (t : string) (cs : list column) (d : db) : exn + db :=
  match tables d !! t, indexes d !! t with
  | None, None => inr (Db (<[t := Table cs []]> (tables d)) (indexes d))
  | _, _ => inl (AlreadyExists t)
  end.

Definition insert_select (clock : string) (target : string) (tcols : list string)
    (source : string) (scols : list string) (w : option pred) (d : db)
    : exn + (db * nat) :=
  match tables d !! target with
  | None => inl (NoSuchTable target)
  | Some T =>
      match resolve (cols T) tcols with
      | inl e => inl e
      | inr _ =>
          match tables d !! source with
          | None => inl (NoSuchTable source)
          | Some src =>
              match resolve (cols src) scols, where_test (cols src) w with
              | inl e, _ => inl e
              | _, inl e => inl e
              | inr ix, inr keep =>
                  if negb (Nat.eqb (length tcols) (length scols)) then inl ArityMismatch
                  else
                    let tuples := project ix <$> filter (λ r, keep r = true) (rows src) in
                    let new := build_row clock (cols T) tcols <$> tuples in
                    match store_rows (cols T) (rows T) new with
                    | inl e => inl e
                    | inr rs =>
                        inr (Db (<[target := Table (cols T) rs]> (tables d)) (indexes d),
                             length new)
                    end
              end
          end
      end
  end.

(** Dropping a table drops its indexes. *)
Definition drop_table (t : string) (d : db) : exn + db :=
  match tables d !! t with
  | None => inl (NoSuchTable t)
  | Some _ =>
      inr (Db (delete t (tables d))
              (filter (λ kv : string * (string * string), kv.2.1 ≠ t) (indexes d)))
  end.

(** Renaming a table carries its indexes along. *)
Definition rename_table (old new : string) (d : db) : exn + db :=
  match tables d !! old with
  | None => inl (NoSuchTable old)
  | Some T =>
      match tables d !! new, indexes d !! new with
      | None, None =>
          inr (Db (<[new := T]> (delete old (tables d)))
                  ((λ tc : string * string,
                      if bool_decide (tc.1 = old) then (new, tc.2) else tc)
                     <$> indexes d))
      | _, _ => inl (AlreadyExists new)
      end
  end.

(** [IF NOT EXISTS]: an index of that name makes the statement a no-op. *)
Definition create_index_if_not_exists (i t c : string) (d : db) : exn + db :=
  match tables d !! t with
  | None => inl (NoSuchTable t)
  | Some T =>
      match tables d !! i with
      | Some _ => inl (AlreadyExists i)
      | None =>
          match indexes d !! i with
          | Some _ => inr d
          | None =>
              match col_index c (cols T) with
              | None => inl (NoSuchColumn c)
              | Some _ => inr (Db (tables d) (<[i := (t, c)]> (indexes d)))
              end
          end
      end
  end.

(** [PRAGMA table_info] of a table that does not exist is an empty
    result, not an error. *)
Definition table_info (t : string) (d : db) : list column :=
  match tables d !! t with
  | None => []
  | Some T => cols T
  end.

Definition select_count (t : string) (w : option pred) (d : db) : exn + nat :=
  match tables d !! t with
  | None => inl (NoSuchTable t)
  | Some T =>
      match where_test (cols T) w with
      | inl e => inl e
      | inr keep => inr (length (filter (λ r, keep r = true) (rows T)))
      end
  end.

Definition delete_where (t : string) (w : pred) (d : db) : exn + (db * nat) :=
  match tables d !! t with
  | None => inl (NoSuchTable t)
  | Some T =>
      match where_test (cols T) (Some w) with
      | inl e => inl e
      | inr keep =>
          inr (Db (<[t := Table (cols T) (filter (λ r, keep r ≠ true) (rows T))]> (tables d))
                  (indexes d),
               length (filter (λ r, keep r = true) (rows T)))
      end
  end.

(** One statement against a database.  A statement that fails leaves the
    database as it was.  [rowcount] is -1 after a statement that is
    neither INSERT nor DELETE. *)
Definition run_stmt (clock : string) (s : stmt) (d : db) : exn + (db * result) :=
  match s with
  | Begin => inr (d, Rowcount (-1))
  | PragmaTableInfo t => inr (d, Columns (table_info t d))
  | CreateTable t cs =>
      match create_table t cs d with
      | inl e => inl e
      | inr d' => inr (d', Rowcount (-1))
      end
  | InsertSelect target tcols source scols w =>
      match insert_select clock target tcols source scols w d with
      | inl e => inl e
      | inr (d', n) => inr (d', Rowcount (Z.of_nat n))
      end
  | DropTable t =>
      match drop_table t d with
      | inl e => inl e
      | inr d' => inr (d', Rowcount (-1))
      end
  | RenameTable old new =>
      match rename_table old new d with
      | inl e => inl e
      | inr d' => inr (d', Rowcount (-1))
      end
  | CreateIndexIfNotExists i t c =>
      match create_index_if_not_exists i t c d with
      | inl e => inl e
      | inr d' => inr (d', Rowcount (-1))
      end
  | SelectCount t w =>
      match select_count t w d with
      | inl e => inl e
      | inr n => inr (d, Count n)
      end
  | DeleteWhere t w =>
      match delete_where t w d with
      | inl e => inl e
      | inr (d', n) => inr (d', Rowcount (Z.of_nat n))
      end
  end.

(** ** The world of a run *)

(** What a run depends on besides the database: whether the file opens,
    which calls on the connection fail for a reason the engine above does
    not model (numbered from 0 in the order the script makes them), and the
    text of CURRENT_TIMESTAMP. *)
Record env := Env {
  opens : bool;
  fault : nat → bool;
  clock : string
}.

Definition nl : string := String (ascii_of_nat 10) "".

(** Lines the scripts print. *)
Inductive message :=
| Line (s : string)                                   (* print("s") *)
| LineNames (label : string) (ns : list string)       (* print("label", names) *)
| LineCount (before : string) (n : Z) (after : string) (* print(f"before{n}after") *)
| LineError (x : exn).                                (* print(f"Error during migration: {e}") *)

Global Instance message_eq_dec : EqDecision message.
Proof. solve_decision. Defined.

(** What a run does, in order: the calls it makes and the lines it prints. *)
Inductive event :=
| Connect (path : string)           (* sqlite3.connect(path) *)
| Execute (s : stmt)                (* conn.execute / cursor.execute *)
| Commit                            (* conn.commit() *)
| Rollback                          (* conn.rollback() *)
| Close                             (* conn.close() *)
| Printed (m : message)
| Input (prompt : string).          (* input(prompt) *)

Global Instance event_eq_dec : EqDecision event.
Proof. solve_decision. Defined.

(** [disk] is the committed content of [data/ewcs.db]; [view] is what the
    connection sees, its uncommitted changes included; [in_tx] says whether
    a transaction is open; [conn] whether the local variable [conn] of the
    running function is bound; [calls] counts the calls made on the
    connection. *)
Record world := World {
  disk : db;
  view : db;
  in_tx : bool;
  conn : bool;
  calls : nat;
  trace : list event
}.

(** A process starts on the database file with nothing bound. *)
Definition boot (d : db) : world := World d d false false 0 [].

Definition M (A : Type) : Type := world → (exn + A) * world.

Definition ret {A} (a : A) : M A := λ w, (inr a, w).

Definition raise {A} (x : exn) : M A := λ w, (inl x, w).

Definition bind {A B} (m : M A) (k : A → M B) : M B := λ w,
  match m w with
  | (inl x, w') => (inl x, w')
  | (inr a, w') => k a w'
  end.

(** [try: body except Exception as e: handler e] *)
Definition try_except {A} (body : M A) (handler : exn → M A) : M A := λ w,
  match body w with
  | (inl x, w') => handler x w'
  | (inr a, w') => (inr a, w')
  end.

Declare Scope py_scope.
Delimit Scope py_scope with py.
Notation "x <- m ;; k" := (bind m (λ x, k))
  (at level 100, m at next level, right associativity) : py_scope.
Notation "m ;; k" := (bind m (λ _, k))
  (at level 100, right associativity) : py_scope.
Open Scope py_scope.

Definition record (ev : event) (w : world) : world :=
  World (disk w) (view w) (in_tx w) (conn w) (calls w) (trace w ++ [ev]).

Definition print (m : message) : M unit := λ w, (inr tt, record (Printed m) w).

(** [input(prompt)]: the next line of standard input, [EOFError] at its end. *)
Definition input (stdin : option string) (prompt : string) : M string := λ w,
  match stdin with
  | Some l => (inr l, record (Input prompt) w)
  | None => (inl EOFError, record (Input prompt) w)
  end.

(** [conn = sqlite3.connect(path)]: binds [conn] when the file opens. *)
Definition connect (e : env) (path : string) : M unit := λ w,
  let w := record (Connect path) w in
  if opens e
  then (inr tt, World (disk w) (disk w) false true (calls w) (trace w))
  else (inl CannotOpen, w).

(** INSERT and DELETE outside a transaction open one implicitly (the
    module's default isolation level); any other statement outside a
    transaction takes effect on the file at once. *)
Definition opens_tx (s : stmt) : bool :=
  match s with
  | InsertSelect _ _ _ _ _ | DeleteWhere _ _ => true
  | _ => false
  end.

Definition execute (e : env) (s : stmt) : M result := λ w,
  let n := calls w in
  let w := World (disk w) (view w) (in_tx w) (conn w) (S n) (trace w ++ [Execute s]) in
  if fault e n then (inl (EngineFault n), w)
  else
    match s with
    | Begin =>
        if in_tx w then (inl NestedTransaction, w)
        else (inr (Rowcount (-1)), World (disk w) (view w) true (conn w) (calls w) (trace w))
    | _ =>
        match run_stmt (clock e) s (view w) with
        | inl x => (inl x, w)
        | inr (d', r) =>
            if in_tx w || opens_tx s
            then (inr r, World (disk w) d' true (conn w) (calls w) (trace w))
            else (inr r, World d' d' false (conn w) (calls w) (trace w))
        end
    end.

(** [conn.commit()]: the view becomes the content of the file. *)
Definition commit (e : env) : M unit := λ w,
  let n := calls w in
  let w := World (disk w) (view w) (in_tx w) (conn w) (S n) (trace w ++ [Commit]) in
  if fault e n then (inl (EngineFault n), w)
  else if in_tx w
       then (inr tt, World (view w) (view w) false (conn w) (calls w) (trace w))
       else (inr tt, w).

(** [conn.rollback()]: an open transaction is undone; without one,
    nothing happens. *)
Definition rollback : M unit := λ w,
  let w := record Rollback w in
  if in_tx w
  then (inr tt, World (disk w) (disk w) false (conn w) (calls w) (trace w))
  else (inr tt, w).

(** [conn.close()]: what was not committed is lost. *)
Definition close : M unit := λ w,
  let w := record Close w in
  (inr tt, World (disk w) (disk w) false (conn w) (calls w) (trace w)).

(** Reading the local variable [conn]: [UnboundLocalError] if the
    assignment [conn = sqlite3.connect(...)] never completed.  A bound
    connection object is truthy. *)
Definition read_conn : M bool := λ w,
  if conn w then (inr true, w) else (inl (UnboundLocalError "conn"), w).

(** [cursor.fetchall()] after a PRAGMA, [cursor.fetchone()[0]] after a
    COUNT, [cursor.rowcount]. *)
Definition fetchall (r : result) : list column :=
  match r with Columns cs => cs | _ => [] end.

Definition fetchone0 (r : result) : nat :=
  match r with Count n => n | _ => 0 end.

Definition rowcount (r : result) : Z :=
  match r with Rowcount n => n | _ => (-1)%Z end.

(** ** The column-drop scripts *)

(** [migrate_cs125_current.py] and [migrate_power_save_mode.py] are the same
    text but for the column they look for, the columns of the table they
    create and copy, and the wording of their messages. *)
Inductive script := Cs125Current | PowerSaveMode.

Definition removed (s : script) : string :=
  match s with
  | Cs125Current => "cs125_current"
  | PowerSaveMode => "power_save_mode"
  end.

Definition plain (n t : string) : column := Column n t false NoDefault false.

(** The column definitions of [CREATE TABLE ewcs_data_new]. *)
Definition target (s : script) : list column :=
  match s with
  | Cs125Current =>
      [ Column "id" "INTEGER" false NoDefault true;
        Column "timestamp" "INTEGER" true NoDefault false;
        plain "station_name" "TEXT";
        Column "power_save_mode" "TEXT" false (Literal (VText "normal")) false;
        plain "cs125_visibility" "REAL";
        plain "cs125_synop" "INTEGER";
        plain "cs125_temp" "REAL";
        plain "cs125_humidity" "REAL";
        plain "sht45_temp" "REAL";
        plain "sht45_humidity" "REAL";
        plain "rpi_temp" "REAL";
        plain "chan1_current" "REAL";
        plain "chan2_current" "REAL";
        plain "chan3_current" "REAL";
        plain "chan4_current" "REAL";
        plain "pv_vol" "REAL";
        plain "pv_cur" "REAL";
        plain "load_vol" "REAL";
        plain "load_cur" "REAL";
        plain "bat_temp" "REAL";
        plain "dev_temp" "REAL";
        plain "charg_equip_stat" "INTEGER";
        plain "dischg_equip_stat" "INTEGER";
        Column "created_at" "DATETIME" false CurrentTimestamp false ]
  | PowerSaveMode =>
      [ Column "id" "INTEGER" false NoDefault true;
        Column "timestamp" "INTEGER" true NoDefault false;
        plain "station_name" "TEXT";
        plain "cs125_visibility" "REAL";
        plain "cs125_synop" "INTEGER";
        plain "cs125_temp" "REAL";
        plain "cs125_humidity" "REAL";
        plain "sht45_temp" "REAL";
        plain "sht45_humidity" "REAL";
        plain "rpi_temp" "REAL";
        plain "chan1_current" "REAL";
        plain "chan2_current" "REAL";
        plain "chan3_current" "REAL";
        plain "chan4_current" "REAL";
        plain "pv_vol" "REAL";
        plain "pv_cur" "REAL";
        plain "load_vol" "REAL";
        plain "load_cur" "REAL";
        plain "bat_temp" "REAL";
        plain "dev_temp" "REAL";
        plain "charg_equip_stat" "INTEGER";
        plain "dischg_equip_stat" "INTEGER";
        Column "created_at" "DATETIME" false CurrentTimestamp false ]
  end.

(** The column list of [INSERT INTO ewcs_data_new (...)], which is also the
    list after [SELECT]. *)
Definition copied (s : script) : list string :=
  match s with
  | Cs125Current =>
      [ "id"; "timestamp"; "station_name"; "power_save_mode";
        "cs125_visibility"; "cs125_synop"; "cs125_temp"; "cs125_humidity";
        "sht45_temp"; "sht45_humidity"; "rpi_temp";
        "chan1_current"; "chan2_current"; "chan3_current"; "chan4_current";
        "pv_vol"; "pv_cur"; "load_vol"; "load_cur"; "bat_temp"; "dev_temp";
        "charg_equip_stat"; "dischg_equip_stat"; "created_at" ]
  | PowerSaveMode =>
      [ "id"; "timestamp"; "station_name";
        "cs125_visibility"; "cs125_synop"; "cs125_temp"; "cs125_humidity";
        "sht45_temp"; "sht45_humidity"; "rpi_temp";
        "chan1_current"; "chan2_current"; "chan3_current"; "chan4_current";
        "pv_vol"; "pv_cur"; "load_vol"; "load_cur"; "bat_temp"; "dev_temp";
        "charg_equip_stat"; "dischg_equip_stat"; "created_at" ]
  end.

Definition found_line (s : script) : message :=
  Line ("Found " +:+ removed s +:+ " column in ewcs_data table").

Definition success_line (s : script) : message :=
  Line ("Successfully removed " +:+ removed s +:+ " column from ewcs_data table").

Definition nothing_line (s : script) : message :=
  Line (removed s +:+ " column not found in ewcs_data table. Nothing to migrate.").

Definition create_new (s : script) : stmt :=
  CreateTable "ewcs_data_new" (target s).

Definition copy_rows (s : script) : stmt :=
  InsertSelect "ewcs_data_new" (copied s) "ewcs_data" (copied s) None.

Definition recreate_index : stmt :=
  CreateIndexIfNotExists "idx_ewcs_data_timestamp" "ewcs_data" "timestamp".

(** The [except Exception as e:] block the three functions share. *)
Definition on_error (x : exn) : M bool :=
  print (LineError x) ;;
  c <- read_conn ;;
  (if c then rollback ;; close else ret tt) ;;
  ret false.

(** The [try:] block of [migrate_cs125_current] and
    [migrate_power_save_mode]. *)
Definition drop_body (s : script) (e : env) : M bool :=
  connect e "data/ewcs.db" ;;
  execute e Begin ;;
  columns <- execute e (PragmaTableInfo "ewcs_data") ;;
  let column_names := names (fetchall columns) in
  (if bool_decide (removed s ∈ column_names) then
     print (found_line s) ;;
     print (LineNames "Current columns:" column_names) ;;
     execute e (create_new s) ;;
     copy <- execute e (copy_rows s) ;;
     let rows_migrated := rowcount copy in
     print (LineCount "Migrated " rows_migrated " rows to new table") ;;
     execute e (DropTable "ewcs_data") ;;
     execute e (RenameTable "ewcs_data_new" "ewcs_data") ;;
     execute e recreate_index ;;
     commit e ;;
     print (success_line s) ;;
     new_columns <- execute e (PragmaTableInfo "ewcs_data") ;;
     print (LineNames "New columns:" (names (fetchall new_columns)))
   else
     print (nothing_line s)) ;;
  close ;;
  ret true.

Definition migrate_column (s : script) (e : env) : M bool :=
  try_except (drop_body s e) on_error.

Definition migrate_cs125_current : env → M bool := migrate_column Cs125Current.

Definition migrate_power_save_mode : env → M bool := migrate_column PowerSaveMode.

(** ** The image script *)

Definition fits : option pred := Some (LikeFits "filename").

Definition moved : list string := ["timestamp"; "filename"; "created_at"].

Definition copy_fits : stmt :=
  InsertSelect "oasc_images" moved "ewcs_images" moved fits.

Definition delete_fits : stmt :=
  DeleteWhere "ewcs_images" (LikeFits "filename").

Definition images_body (e : env) : M bool :=
  connect e "data/ewcs.db" ;;
  execute e Begin ;;
  r <- execute e (SelectCount "ewcs_images" fits) ;;
  let fits_count := fetchone0 r in
  print (LineCount "Found " (Z.of_nat fits_count) " FITS files in ewcs_images table") ;;
  r <- execute e (SelectCount "oasc_images" None) ;;
  let oasc_count := fetchone0 r in
  print (LineCount "Current OASC images table has " (Z.of_nat oasc_count) " records") ;;
  (if bool_decide (0 < fits_count) then
     print (Line (nl +:+ "Migrating FITS files to oasc_images table...")) ;;
     r <- execute e copy_fits ;;
     let migrated := rowcount r in
     print (LineCount "Migrated " migrated " FITS files to oasc_images") ;;
     print (Line "Removing FITS files from ewcs_images table...") ;;
     r <- execute e delete_fits ;;
     let deleted := rowcount r in
     print (LineCount "Removed " deleted " FITS files from ewcs_images") ;;
     commit e ;;
     print (Line (nl +:+ "Migration completed successfully!")) ;;
     r <- execute e (SelectCount "ewcs_images" None) ;;
     let ewcs_final := fetchone0 r in
     r <- execute e (SelectCount "oasc_images" None) ;;
     let oasc_final := fetchone0 r in
     print (Line (nl +:+ "Final state:")) ;;
     print (LineCount "  ewcs_images (Spinel): " (Z.of_nat ewcs_final) " records") ;;
     print (LineCount "  oasc_images (OASC): " (Z.of_nat oasc_final) " records")
   else
     print (Line "No FITS files found in ewcs_images table. Nothing to migrate.")) ;;
  close ;;
  ret true.

Definition migrate_images (e : env) : M bool :=
  try_except (images_body e) on_error.

(** ** The [__main__] blocks *)

(** [sys.exit(n)] ends the process with status [n]; an exception nobody
    catches ends it with status 1. *)
Definition exit_status (r : exn + Z) : Z :=
  match r with
  | inr n => n
  | inl _ => 1%Z
  end.

Definition main_cs125_current (stdin : option string) (e : env) : M Z :=
  print (Line "EWCS cs125_current Column Removal Script") ;;
  print (Line "=======================================") ;;
  response <- input stdin
    (nl +:+ "This will remove the cs125_current column from ewcs_data table."
        +:+ nl +:+ "Continue? (y/n): ") ;;
  if bool_decide (lower response = "y") then
    ok <- migrate_cs125_current e ;;
    if ok then ret 0%Z else ret 1%Z
  else
    print (Line "Migration cancelled.") ;;
    ret 0%Z.

(** [len(sys.argv) > 1 and sys.argv[1] == '-y'] *)
Definition auto_confirm (argv : list string) : bool :=
  bool_decide (1 < length argv) && bool_decide (argv !! 1 = Some "-y").

Definition main_power_save_mode (argv : list string) (stdin : option string)
    (e : env) : M Z :=
  print (Line "EWCS power_save_mode Column Removal Script") ;;
  print (Line "=========================================") ;;
  cancelled <-
    (if negb (auto_confirm argv) then
       response <- input stdin
         (nl +:+ "This will remove the power_save_mode column from ewcs_data table."
             +:+ nl +:+ "Continue? (y/n): ") ;;
       if bool_decide (lower response ≠ "y") then
         print (Line "Migration cancelled.") ;;
         ret true                       (* sys.exit(0) *)
       else ret false
     else
       print (Line (nl +:+ "Auto-confirming migration with -y flag...")) ;;
       ret false) ;;
  if cancelled : bool then ret 0%Z
  else
    ok <- migrate_power_save_mode e ;;
    if ok then ret 0%Z else ret 1%Z.

Definition main_images (stdin : option string) (e : env) : M Z :=
  print (Line "EWCS Image Table Migration Script") ;;
  print (Line "==================================") ;;
  response <- input stdin
    (nl +:+ "This will move all FITS files from ewcs_images to oasc_images table."
        +:+ nl +:+ "Continue? (y/n): ") ;;
  if bool_decide (lower response = "y") then
    ok <- migrate_images e ;;
    if ok then ret 0%Z else ret 1%Z
  else
    print (Line "Migration cancelled.") ;;
    ret 0%Z.

(** The exit status of a process running [main] on the database [d], and
    the world it leaves. *)
Definition run {A} (prog : M A) (d : db) : (exn + A) * world := prog (boot d).

Definition status (main : M Z) (d : db) : Z := exit_status (run main d).1.

(** ** Notions used in the statements *)

(** An environment in which the file opens and no call fails for a reason
    outside the engine. *)
Definition quiet (e : env) : Prop := opens e = true ∧ ∀ n, fault e n = false.

Definition calm : env := Env true (λ _, false) "2025-01-01 00:00:00".

(** An environment whose [k]-th call on the connection fails. *)
Definition failing (k : nat) : env := Env true (λ n, Nat.eqb n k) "2025-01-01 00:00:00".

(** An environment in which the database file cannot be opened. *)
Definition closed_door : env := Env false (λ _, false) "2025-01-01 00:00:00".

(** A column list minus the column called [n], order kept. *)
Definition without (n : string) (cs : list column) : list column :=
  filter (λ c, cname c ≠ n) cs.

Definition is_int (v : value) : Prop :=
  match v with VInt _ => True | _ => False end.

Global Instance is_int_dec v : Decision (is_int v).
Proof. destruct v; simpl; apply _. Defined.

(** What the engine maintains of a table: distinct column names, at most
    one primary key, rows as long as the schema, no NULL under NOT NULL,
    and distinct integers in the rowid column. *)
Definition keyed (t : table) : Prop :=
  match rowid_col (cols t) with
  | Some k => Forall (λ r, is_int (cell r k)) (rows t) ∧ NoDup (keys k (rows t))
  | None => True
  end.

Global Instance keyed_dec t : Decision (keyed t).
Proof. unfold keyed. destruct (rowid_col (cols t)); apply _. Defined.

Definition wf_table (t : table) : Prop :=
  NoDup (names (cols t)) ∧
  length (filter (λ c, cpk c = true) (cols t)) ≤ 1 ∧
  Forall (λ r, length r = length (cols t) ∧ null_violation (cols t) r = None) (rows t) ∧
  keyed t.

Global Instance wf_table_dec t : Decision (wf_table t).
Proof. unfold wf_table. apply _. Defined.

(** The operator of [migrate_power_save_mode.py] declines at the prompt,
    or goes ahead, by the flag or at the prompt. *)
Definition declined (argv : list string) (stdin : option string) : Prop :=
  auto_confirm argv = false ∧ ∃ r, stdin = Some r ∧ lower r ≠ "y".

Definition confirmed (argv : list string) (stdin : option string) : Prop :=
  auto_confirm argv = true ∨ ∃ r, stdin = Some r ∧ lower r = "y".

(** The [except] block ran: the error line was printed. *)
Definition caught (w : world) : Prop := ∃ x, Printed (LineError x) ∈ trace w.

(** The database after statements 3 to 7 of a column-drop script (create,
    copy, drop, rename, index), when each succeeds. *)
Definition swap (clk : string) (s : script) (d : db) : exn + db :=
  match create_table "ewcs_data_new" (target s) d with
  | inl x => inl x
  | inr d1 =>
      match insert_select clk "ewcs_data_new" (copied s) "ewcs_data" (copied s) None d1 with
      | inl x => inl x
      | inr (d2, _) =>
          match drop_table "ewcs_data" d2 with
          | inl x => inl x
          | inr d3 =>
              match rename_table "ewcs_data_new" "ewcs_data" d3 with
              | inl x => inl x
              | inr d4 => create_index_if_not_exists
                            "idx_ewcs_data_timestamp" "ewcs_data" "timestamp" d4
              end
          end
      end
  end.

(** What a column-drop script does when it finds nothing to migrate. *)
Definition noop_trace (s : script) : list event :=
  [ Connect "data/ewcs.db"; Execute Begin; Execute (PragmaTableInfo "ewcs_data");
    Printed (nothing_line s); Close ].

(** The three copied cells of an image row. *)
Definition triple (cs : list column) (r : row) : list (option value) :=
  field cs r <$> moved.

(** The rowid column of a table, if it has one, is none of the columns
    called [ns]. *)
Definition key_apart (cs : list column) (ns : list string) : Prop :=
  Forall (λ n, col_index n cs ≠ rowid_col cs ∨ rowid_col cs = None) ns.

(** The declared type of the column called [n]. *)
Definition col_type (n : string) (cs : list column) : option string :=
  (λ p : nat * column, ctype p.2) <$> list_find (λ c, cname c = n) cs.

(** Both schemas have the columns called [ns], declared with the same types.
    (The engine converts a value to the affinity of the column it is stored
    in; between two columns declared alike it leaves the value as it is.) *)
Definition same_types (scs tcs : list column) (ns : list string) : Prop :=
  Forall (λ n, is_Some (col_type n tcs) ∧ col_type n tcs = col_type n scs) ns.

Global Instance same_types_dec scs tcs ns : Decision (same_types scs tcs ns).
Proof. unfold same_types. apply _. Defined.


(** A name the engine keeps for its own tables. *)
Definition internal (k : string) : Prop := String.prefix "sqlite_" (lower k) = true.

(** The image script got past its commit. *)
Definition completed (w : world) : Prop :=
  Printed (Line (nl +:+ "Migration completed successfully!")) ∈ trace w.

(** The statements the image script runs between opening the connection
    and committing. *)
Definition image_steps : list stmt :=
  [ Begin; SelectCount "ewcs_images" fits; SelectCount "oasc_images" None;
    copy_fits; delete_fits ].

(** The rows a [WHERE filename LIKE '%.fits'] selects in a table. *)
Definition fits_rows (t : table) : list row :=
  match col_index "filename" (cols t) with
  | Some i => filter (λ r, like_fits (cell r i) = true) (rows t)
  | None => []
  end.

Definition other_rows (t : table) : list row :=
  match col_index "filename" (cols t) with
  | Some i => filter (λ r, like_fits (cell r i) ≠ true) (rows t)
  | None => rows t
  end.

(** The key column both scripts declare. *)
Definition id_column : column := Column "id" "INTEGER" false NoDefault true.

(** The exit status the function's result is turned into. *)
Definition exit_of (r : exn + bool) : exn + Z :=
  match r with
  | inr true => inr 0%Z
  | inr false => inr 1%Z
  | inl x => inl x
  end.

(** ** Concrete databases *)

Definition legacy_columns : list column :=
  [ Column "id" "INTEGER" false NoDefault true;
    Column "timestamp" "INTEGER" true NoDefault false;
    Column "station_name" "TEXT" false NoDefault false;
    Column "power_save_mode" "TEXT" false (Literal (VText "normal")) false;
    Column "cs125_current" "REAL" false NoDefault false ]
  ++ drop 4 (target Cs125Current).

Definition legacy_row (id ts : Z) : row :=
  [ VInt id; VInt ts; VText "EWCS"; VText "normal"; VReal 4 ]
  ++ [ VReal 2000; VInt 0 ] ++ replicate 15 (VReal 1) ++ [ VInt 1; VInt 0 ]
  ++ [ VText "2024-06-01 12:00:00" ].

(** The table as it was before either column was dropped, with its
    timestamp index. *)
Definition legacy : db :=
  Db {[ "ewcs_data" := Table legacy_columns [legacy_row 1 1717243200; legacy_row 2 1717243260] ]}
     {[ "idx_ewcs_data_timestamp" := ("ewcs_data", "timestamp") ]}.

(** A table that has the column to drop but lacks most of the others. *)
Definition sparse : db :=
  Db {[ "ewcs_data" :=
          Table [ Column "id" "INTEGER" false NoDefault true;
                  Column "timestamp" "INTEGER" true NoDefault false;
                  Column "cs125_current" "REAL" false NoDefault false ]
                [ [VInt 1; VInt 1717243200; VReal 4] ] ]}
     ∅.

(** [legacy] with a table named [ewcs_data_new] already there. *)
Definition crowded : db :=
  Db (<[ "ewcs_data_new" := Table [ Column "id" "INTEGER" false NoDefault true ] [] ]>
        (tables legacy))
     (indexes legacy).

(** A table without either of the two columns. *)
Definition migrated : db :=
  Db {[ "ewcs_data" := Table (target PowerSaveMode) [] ]} ∅.

(** A table whose primary key is the column the script drops. *)
Definition keyed_on_removed : db :=
  Db {[ "ewcs_data" :=
          Table (Column "cs125_current" "INTEGER" false NoDefault true
                 :: Column "id" "INTEGER" false NoDefault false
                 :: drop 1 (target Cs125Current))
                [ VInt 7 :: VInt 1 :: VInt 1717243200 :: replicate 22 VNull ] ]}
     ∅.

Definition image_columns : list column :=
  [ Column "id" "INTEGER" false NoDefault true;
    Column "timestamp" "INTEGER" true NoDefault false;
    Column "filename" "TEXT" true NoDefault false;
    Column "created_at" "DATETIME" false CurrentTimestamp false ].

Definition gallery : db :=
  Db {[ "ewcs_images" :=
          Table image_columns
            [ [VInt 1; VInt 10; VText "spinel_0001.jpg"; VText "2024-06-01 12:00:00"];
              [VInt 2; VInt 11; VText "oasc_0001.fits"; VText "2024-06-01 12:01:00"];
              [VInt 3; VInt 12; VText "oasc_0002.FITS"; VText "2024-06-01 12:02:00"] ];
        "oasc_images" :=
          Table image_columns
            [ [VInt 5; VInt 9; VText "oasc_0000.fits"; VText "2024-06-01 11:59:00"] ] ]}
     ∅.


(** [legacy] beside a table of images with an index of its own. *)
Definition station : db :=
  Db (<[ "ewcs_images" :=
           Table image_columns
             [ [VInt 1; VInt 10; VText "spinel_0001.jpg"; VText "2024-06-01 12:00:00"] ] ]>
        (tables legacy))
     (<[ "idx_ewcs_images_timestamp" := ("ewcs_images", "timestamp") ]> (indexes legacy)).

(** Image tables in which [ewcs_images] names its files in a column
    [path]. *)
Definition pathless : db :=
  Db {[ "ewcs_images" :=
          Table [ Column "id" "INTEGER" false NoDefault true;
                  Column "timestamp" "INTEGER" true NoDefault false;
                  Column "path" "TEXT" true NoDefault false ]
            [ [VInt 1; VInt 10; VText "oasc_0001.fits"] ];
        "oasc_images" := Table image_columns [] ]}
     ∅.

(** The statements a column-drop script runs between opening the
    connection and committing. *)
Definition transaction_steps (s : script) : list stmt :=
  [ Begin; PragmaTableInfo "ewcs_data"; create_new s; copy_rows s;
    DropTable "ewcs_data"; RenameTable "ewcs_data_new" "ewcs_data"; recreate_index ].

(** The statement that raised inside the transaction, if any: the first
    statement followed at once by the error line, while no commit has been
    called. *)
Fixpoint raised_in_transaction (tr : list event) : option stmt :=
  match tr with
  | [] => None
  | Commit :: _ => None
  | Execute st :: rest =>
      match rest with
      | Printed (LineError _) :: _ => Some st
      | _ => raised_in_transaction rest
      end
  | _ :: rest => raised_in_transaction rest
  end.

(** The commit went through: the line after [conn.commit()] was printed. *)
Definition committed (s : script) (w : world) : Prop :=
  Printed (success_line s) ∈ trace w.

(** What a run did after calling commit. *)
Fixpoint after_commit (tr : list event) : list event :=
  match tr with
  | [] => []
  | Commit :: rest => rest
  | _ :: rest => after_commit rest
  end.

(** A stored row is the row given, but for a key the engine assigned. *)
Definition stored_as (cs : list column) (r r' : row) : Prop :=
  r' = r ∨ ∃ k z, rowid_col cs = Some k ∧ cell r k = VNull ∧ r' = <[k := VInt z]> r.

(** ** Notions used in the further properties *)

(** What a column-drop run that goes all the way does, in order, on a
    table with the column names [before] and [n] rows. *)

(** What a column-drop script does and prints when it finds the column
    and every step goes through, on a table with the columns [before] and
    [n] rows. *)
Definition done_trace (s : script) (before : list string) (n : nat) : list event :=
  [ Connect "data/ewcs.db"; Execute Begin; Execute (PragmaTableInfo "ewcs_data");
    Printed (found_line s); Printed (LineNames "Current columns:" before);
    Execute (create_new s); Execute (copy_rows s);
    Printed (LineCount "Migrated " (Z.of_nat n) " rows to new table");
    Execute (DropTable "ewcs_data"); Execute (RenameTable "ewcs_data_new" "ewcs_data");
    Execute recreate_index; Commit; Printed (success_line s);
    Execute (PragmaTableInfo "ewcs_data");
    Printed (LineNames "New columns:" (names (target s))); Close ].

(** What a run of the image script does when it finds no row to move,
    [oasc_images] holding [n] rows. *)
Definition idle_trace (n : nat) : list event :=
  [ Connect "data/ewcs.db"; Execute Begin;
    Execute (SelectCount "ewcs_images" fits);
    Printed (LineCount "Found " 0 " FITS files in ewcs_images table");
    Execute (SelectCount "oasc_images" None);
    Printed (LineCount "Current OASC images table has " (Z.of_nat n) " records");
    Printed (Line "No FITS files found in ewcs_images table. Nothing to migrate.");
    Close ].

(** What a run of the image script that goes all the way does, given the
    six numbers it prints. *)
Definition move_trace (found before migrated removed left now : nat) : list event :=
  [ Connect "data/ewcs.db"; Execute Begin;
    Execute (SelectCount "ewcs_images" fits);
    Printed (LineCount "Found " (Z.of_nat found) " FITS files in ewcs_images table");
    Execute (SelectCount "oasc_images" None);
    Printed (LineCount "Current OASC images table has " (Z.of_nat before) " records");
    Printed (Line (nl +:+ "Migrating FITS files to oasc_images table..."));
    Execute copy_fits;
    Printed (LineCount "Migrated " (Z.of_nat migrated) " FITS files to oasc_images");
    Printed (Line "Removing FITS files from ewcs_images table...");
    Execute delete_fits;
    Printed (LineCount "Removed " (Z.of_nat removed) " FITS files from ewcs_images");
    Commit;
    Printed (Line (nl +:+ "Migration completed successfully!"));
    Execute (SelectCount "ewcs_images" None);
    Execute (SelectCount "oasc_images" None);
    Printed (Line (nl +:+ "Final state:"));
    Printed (LineCount "  ewcs_images (Spinel): " (Z.of_nat left) " records");
    Printed (LineCount "  oasc_images (OASC): " (Z.of_nat now) " records");
    Close ].

Definition index_name : string := "idx_ewcs_data_timestamp".

(** The indexes that outlive DROP TABLE and the renaming. *)
Definition surviving (ix : gmap string (string * string)) : gmap string (string * string) :=
  (λ tc : string * string,
     if bool_decide (tc.1 = "ewcs_data_new") then ("ewcs_data", tc.2) else tc)
    <$> filter (λ kv : string * (string * string), kv.2.1 ≠ "ewcs_data") ix.

(** What a [__main__] block does before calling the function, or instead
    of calling it, is printing and reading. *)
Definition chatter (tr : list event) : Prop :=
  ∀ ev, ev ∈ tr → (∃ m, ev = Printed m) ∨ (∃ p, ev = Input p).

(** ** Proof automation *)

Arguments create_table : simpl never.
Arguments insert_select : simpl never.
Arguments drop_table : simpl never.
Arguments rename_table : simpl never.
Arguments create_index_if_not_exists : simpl never.
Arguments select_count : simpl never.
Arguments delete_where : simpl never.
Arguments table_info : simpl never.
Arguments names : simpl never.
Arguments target : simpl never.
Arguments copied : simpl never.
Arguments removed : simpl never.
Arguments found_line : simpl never.
Arguments success_line : simpl never.
Arguments nothing_line : simpl never.
Arguments nl : simpl never.

Ltac unfold_script :=
  unfold run, migrate_cs125_current, migrate_power_save_mode,
    migrate_column, migrate_images, try_except, drop_body, images_body, on_error,
    create_new, copy_rows, recreate_index, copy_fits, delete_fits, fits,
    bind, ret, raise, connect, execute, commit, rollback, close, read_conn,
    print, input, record, boot.

(** One case split on what the run depends on next. *)
Ltac branch :=
  match goal with
  | H : ∀ n, fault ?e n = false |- context [fault ?e ?n] => rewrite (H n)
  | H : opens ?e = _ |- context [opens ?e] => rewrite H
  | |- context [if opens ?e then _ else _] => destruct (opens e) eqn:?
  | |- context [if fault ?e ?n then _ else _] => destruct (fault e n) eqn:?
  | |- context [bool_decide ?P] => destruct (bool_decide_reflect P)
  | |- context [match create_table ?t ?cs ?d with _ => _ end] =>
      destruct (create_table t cs d) as [?|?] eqn:?
  | |- context [match insert_select ?c ?t ?tc ?s ?sc ?w ?d with _ => _ end] =>
      destruct (insert_select c t tc s sc w d) as [?|[? ?]] eqn:?
  | |- context [match drop_table ?t ?d with _ => _ end] =>
      destruct (drop_table t d) as [?|?] eqn:?
  | |- context [match rename_table ?a ?b ?d with _ => _ end] =>
      destruct (rename_table a b d) as [?|?] eqn:?
  | |- context [match create_index_if_not_exists ?i ?t ?c ?d with _ => _ end] =>
      destruct (create_index_if_not_exists i t c d) as [?|?] eqn:?
  | |- context [match select_count ?t ?w ?d with _ => _ end] =>
      destruct (select_count t w d) as [?|?] eqn:?
  | |- context [match delete_where ?t ?w ?d with _ => _ end] =>
      destruct (delete_where t w d) as [?|[? ?]] eqn:?
  end.

(** All the ways a run can go. *)
Ltac explore := unfold_script; repeat (cbn; branch); cbn.

(** Membership in an explicit list. *)
Ltac member :=
  solve [repeat first [apply list_elem_of_here | apply list_elem_of_further]].

(** An event that is not in an explicit list: every comparison is
    between distinct constructors or refuted from the context. *)
Ltac nowhere H :=
  repeat (apply elem_of_cons in H as [H|H]; [first [discriminate H | congruence]|]);
  by apply elem_of_nil in H.

(** The statements among the events of an explicit list. *)
Ltac statements H :=
  repeat (apply elem_of_cons in H as [H|H];
          [first [discriminate H | injection H as ->; eauto]|]);
  by apply elem_of_nil in H.

(** * Properties *)

(** ** The engine *)

Section engine.
Implicit Types (d : db) (t : table) (cs : list column) (r : row).

Lemma create_table_inr name cs d d' :
  create_table name cs d = inr d' →
  tables d !! name = None ∧ indexes d !! name = None ∧
  d' = Db (<[name := Table cs []]> (tables d)) (indexes d).
Proof.
  unfold create_table.
  destruct (tables d !! name), (indexes d !! name); naive_solver.
Qed.

Lemma create_table_inl name cs d x :
  create_table name cs d = inl x →
  is_Some (tables d !! name) ∨ is_Some (indexes d !! name).
Proof.
  unfold create_table.
  destruct (tables d !! name), (indexes d !! name); naive_solver.
Qed.

Lemma drop_table_inr name d d' :
  drop_table name d = inr d' →
  is_Some (tables d !! name) ∧ tables d' = delete name (tables d).
Proof.
  unfold drop_table. destruct (tables d !! name); naive_solver.
Qed.

Lemma rename_table_inr old new d d' :
  rename_table old new d = inr d' →
  ∃ t, tables d !! old = Some t ∧ tables d !! new = None ∧
       tables d' = <[new := t]> (delete old (tables d)).
Proof.
  unfold rename_table.
  destruct (tables d !! old); [|done].
  destruct (tables d !! new), (indexes d !! new); naive_solver.
Qed.

Lemma create_index_inr i name c d d' :
  create_index_if_not_exists i name c d = inr d' → tables d' = tables d.
Proof.
  unfold create_index_if_not_exists.
  destruct (tables d !! name); [|done].
  destruct (tables d !! i); [done|].
  destruct (indexes d !! i); [naive_solver|].
  destruct (col_index c (cols t)); naive_solver.
Qed.

Lemma resolve_inr cs ns ix :
  resolve cs ns = inr ix → Forall2 (λ n i, col_index n cs = Some i) ns ix.
Proof.
  revert ix. induction ns as [|n ns IH]; intros ix; simpl.
  - intros [= <-]. constructor.
  - destruct (col_index n cs) as [i|] eqn:Hi; [|done].
    destruct (resolve cs ns) as [|ix'] eqn:Hr; [done|].
    intros [= <-]. constructor; auto.
Qed.

Lemma insert_select_inr clk target tcols source scols w d d' n :
  insert_select clk target tcols source scols w d = inr (d', n) →
  ∃ tgt src ix keep rs,
    tables d !! target = Some tgt ∧
    tables d !! source = Some src ∧
    resolve (cols src) scols = inr ix ∧
    where_test (cols src) w = inr keep ∧
    store_rows (cols tgt) (rows tgt)
      (build_row clk (cols tgt) tcols <$>
         (project ix <$> filter (λ r, keep r = true) (rows src))) = inr rs ∧
    d' = Db (<[target := Table (cols tgt) rs]> (tables d)) (indexes d) ∧
    n = length (filter (λ r, keep r = true) (rows src)).
Proof.
  unfold insert_select.
  destruct (tables d !! target) as [tgt|]; [|done].
  destruct (resolve (cols tgt) tcols); [done|].
  destruct (tables d !! source) as [src|]; [|done].
  destruct (resolve (cols src) scols) as [|ix] eqn:Hix; [done|].
  destruct (where_test (cols src) w) as [|keep] eqn:Hw; [done|].
  destruct (negb _); [done|].
  destruct (store_rows _ _ _) as [|rs] eqn:Hs; [done|].
  intros [= <- <-]. exists tgt, src, ix, keep, rs.
  rewrite !length_fmap. by repeat split.
Qed.

Lemma insert_select_target clk target tcols source scols w d res :
  insert_select clk target tcols source scols w d = inr res →
  ∃ tgt, tables d !! target = Some tgt ∧ Forall (λ n, n ∈ names (cols tgt)) tcols.
Proof.
  unfold insert_select.
  destruct (tables d !! target) as [tgt|]; [|done].
  destruct (resolve (cols tgt) tcols) as [|tix] eqn:Htix; [done|].
  intros _. exists tgt. split; [done|].
  apply resolve_inr in Htix. clear -Htix.
  induction Htix as [|n i ns ix Hn _ IH]; constructor; [|done].
  destruct (decide (n ∈ names (cols tgt))) as [|Hno]; [done|].
  unfold col_index, names in *. apply fmap_Some in Hn as ([j c] & Hf & _).
  apply list_find_Some in Hf as (Hj & <- & _).
  exfalso. apply Hno. apply list_elem_of_fmap. exists c. split; [done|].
  by eapply list_elem_of_lookup_2.
Qed.

Lemma delete_where_inr name w d d' n :
  delete_where name w d = inr (d', n) →
  ∃ t keep,
    tables d !! name = Some t ∧
    where_test (cols t) (Some w) = inr keep ∧
    d' = Db (<[name := Table (cols t) (filter (λ r, keep r ≠ true) (rows t))]> (tables d))
            (indexes d) ∧
    n = length (filter (λ r, keep r = true) (rows t)).
Proof.
  unfold delete_where.
  destruct (tables d !! name) as [t|]; [|done].
  destruct (where_test (cols t) (Some w)) as [|keep] eqn:Hw; [done|].
  intros [= <- <-]. exists t, keep. by repeat split.
Qed.

Lemma select_count_inr name w d n :
  select_count name w d = inr n →
  ∃ t keep,
    tables d !! name = Some t ∧
    where_test (cols t) w = inr keep ∧
    n = length (filter (λ r, keep r = true) (rows t)).
Proof.
  unfold select_count.
  destruct (tables d !! name) as [t|]; [|done].
  destruct (where_test (cols t) w) as [|keep] eqn:Hw; [done|].
  intros [= <-]. exists t, keep. by repeat split.
Qed.

Lemma store_row_inr cs rs r r' :
  store_row cs rs r = inr r' → stored_as cs r r'.
Proof.
  unfold store_row, stored_as.
  destruct (rowid_col cs) as [k|].
  - destruct (cell r k) eqn:Hk; try done.
    + destruct (null_violation _ _); [done|]. intros [= <-]. right. eauto.
    + case_bool_decide; [done|].
      destruct (null_violation _ _); [done|]. intros [= <-]. by left.
  - destruct (null_violation _ _); [done|]. intros [= <-]. by left.
Qed.

Lemma store_rows_inr cs rs new out :
  store_rows cs rs new = inr out →
  ∃ kept, out = rs ++ kept ∧ Forall2 (stored_as cs) new kept.
Proof.
  revert rs out. induction new as [|r new IH]; intros rs out; simpl.
  - intros [= <-]. exists []. by rewrite app_nil_r.
  - destruct (store_row cs rs r) as [|r'] eqn:Hr; [done|].
    intros (kept & -> & Hk)%IH. exists (r' :: kept).
    rewrite <- app_assoc. split; [done|].
    constructor; eauto using store_row_inr.
Qed.
End engine.


(** ** Running the scripts *)

Lemma success_not_found s : success_line s ≠ found_line s.
Proof. by destruct s. Qed.

Lemma success_not_nothing s : success_line s ≠ nothing_line s.
Proof. by destruct s. Qed.

Section column_drop.
Variables (s : script) (e : env) (d : db).

(** A statement that raises inside the transaction leaves the file as
    it was. *)
Lemma drop_undone out w st :
  run (migrate_column s e) d = (out, w) →
  raised_in_transaction (trace w) = Some st →
  st ∈ transaction_steps s ∧ out = inr false ∧ Rollback ∈ trace w ∧
  in_tx w = false ∧ view w = d ∧ disk w = d.
Proof.
  unfold transaction_steps. explore; intros [= <- <-]; cbn; try done.
  all: intros [= <-]; repeat split; member.
Qed.

(** Without the column, a run changes nothing and sends nothing but
    BEGIN and the PRAGMA. *)
Lemma drop_absent out w :
  removed s ∉ names (table_info "ewcs_data" d) →
  run (migrate_column s e) d = (out, w) →
  disk w = d ∧
  (∀ st, Execute st ∈ trace w → st = Begin ∨ st = PragmaTableInfo "ewcs_data") ∧
  (out = inr true → trace w = noop_trace s) ∧
  (quiet e → out = inr true).
Proof.
  intros Habs. unfold quiet, noop_trace.
  explore; intros [= <- <-]; cbn; try done.
  all: (split; [done|]); split;
    [ intros st H; statements H
    | split; [done|]; intros [Ho Hf]; try done;
      repeat match goal with H : fault e _ = true |- _ => rewrite Hf in H end;
      congruence ].
Qed.

(** When the commit went through, the file holds the rewritten table
    whatever happens afterwards, and what happens afterwards is the
    PRAGMA, then either the report or the [except] block. *)
Lemma drop_committed out w :
  run (migrate_column s e) d = (out, w) →
  committed s w →
  swap (clock e) s d = inr (disk w) ∧ view w = disk w ∧ in_tx w = false ∧
  removed s ∈ names (table_info "ewcs_data" d) ∧
  (∀ st, Execute st ∈ after_commit (trace w) → st = PragmaTableInfo "ewcs_data") ∧
  (out = inr true ∧ (Rollback ∉ trace w) ∧ (¬ caught w)
   ∨ out = inr false ∧ Rollback ∈ after_commit (trace w) ∧ caught w).
Proof.
  pose proof (success_not_found s) as Hsf.
  pose proof (success_not_nothing s) as Hsn.
  unfold committed, caught.
  explore; intros [= <- <-]; cbn; intros Hc;
    try (exfalso; nowhere Hc); clear Hc.
  all: unfold swap;
    repeat match goal with H : _ = inr _ |- _ => rewrite H; clear H end.
  all: do 4 (split; [done|]); split; [intros st H; statements H|].
  - right. split; [done|]. split; [member|]. eexists. member.
  - left. split; [done|]. split.
    + intros H. nowhere H.
    + intros [x H]. nowhere H.
Qed.

(** A run that returns [True] having found the column went through
    every step. *)
Lemma drop_done w :
  run (migrate_column s e) d = (inr true, w) →
  removed s ∈ names (table_info "ewcs_data" d) →
  committed s w.
Proof.
  unfold committed.
  explore; intros [= <-]; cbn; try done. intros _. member.
Qed.

(** In a quiet environment a run either returns [True] or stops at a
    statement that raised inside the transaction. *)
Lemma drop_quiet out w :
  quiet e →
  run (migrate_column s e) d = (out, w) →
  out = inr true ∨
  out = inr false ∧ disk w = d ∧ is_Some (raised_in_transaction (trace w)).
Proof.
  intros [Ho Hf]. explore; intros [= <- <-]; cbn; eauto.
Qed.

(** [True] is returned when the [try] block completes, [False] when the
    [except] block completes, and the [except] block itself raises when
    [conn] was never bound. *)
Lemma drop_outcome out w :
  run (migrate_column s e) d = (out, w) →
  out = inr true ∧ (¬ caught w) ∧ opens e = true
  ∨ out = inr false ∧ caught w ∧ opens e = true
  ∨ out = inl (UnboundLocalError "conn") ∧ caught w ∧ opens e = false.
Proof.
  unfold caught.
  explore; intros [= <- <-]; cbn.
  all: first
    [ left; split; [done|]; split; [|done]; intros [x H]; nowhere H
    | right; left; split; [done|]; split; [|done]; eexists; member
    | right; right; split; [done|]; split; [|done]; eexists; member ].
Qed.

(** What was printed before the function is called stays in front of
    what the function does. *)
Lemma drop_frame tr :
  migrate_column s e (World d d false false 0 tr) =
  let r := run (migrate_column s e) d in
  (r.1, World (disk r.2) (view r.2) (in_tx r.2) (conn r.2) (calls r.2) (tr ++ trace r.2)).
Proof.
  explore; rewrite <- ?app_assoc; reflexivity.
Qed.

(** In a quiet environment a run that finds the column goes on to
    create the sibling table. *)
Lemma drop_proceeds out w :
  quiet e →
  removed s ∈ names (table_info "ewcs_data" d) →
  run (migrate_column s e) d = (out, w) →
  Execute (create_new s) ∈ trace w.
Proof.
  intros [Ho Hf] Hin. explore; intros [= <- <-]; cbn; try done; member.
Qed.

(** When the file does not open, the [except] block prints the error and
    dies on the unbound [conn]. *)
Lemma drop_closed :
  opens e = false →
  run (migrate_column s e) d =
    (inl (UnboundLocalError "conn"),
     World d d false false 0 [Connect "data/ewcs.db"; Printed (LineError CannotOpen)]).
Proof. intros Ho. by explore. Qed.
End column_drop.


(** ** The image script *)

Section images.
Variables (e : env) (d : db).



(** Past the commit, the file holds what INSERT and DELETE made of
    it, and the two counts the script printed are theirs. *)
Lemma images_completed out w :
  run (migrate_images e) d = (out, w) →
  completed w →
  ∃ d1 n1 n2,
    insert_select (clock e) "oasc_images" moved "ewcs_images" moved fits d = inr (d1, n1) ∧
    delete_where "ewcs_images" (LikeFits "filename") d1 = inr (disk w, n2) ∧
    0 < n1 ∧
    Printed (LineCount "Migrated " (Z.of_nat n1) " FITS files to oasc_images") ∈ trace w ∧
    Printed (LineCount "Removed " (Z.of_nat n2) " FITS files from ewcs_images") ∈ trace w ∧
    (∀ st, Execute st ∈ after_commit (trace w) → ∃ t, st = SelectCount t None).
Proof.
  unfold completed.
  explore; intros [= <- <-]; cbn; intros Hc;
    try (exfalso; nowhere Hc); clear Hc.
  all: match goal with
       | Hi : insert_select _ _ _ _ _ _ _ = inr (?d1, ?n1),
         Hd : delete_where _ _ _ = inr (_, ?n2),
         Hs : select_count "ewcs_images" _ _ = inr ?n |- _ =>
           exists d1, n1, n2
       end.
  all: split; [done|]; split; [done|].
  all: split; [|split; [member|split; [member|intros st H; statements H]]].
  all: match goal with
       | Hi : insert_select _ _ _ _ _ _ _ = inr _,
         Hs : select_count _ (Some _) _ = inr _ |- _ =>
           apply insert_select_inr in Hi as (? & ? & ? & ? & ? & ? & Hsrc & ? & Hw & ? & ? & ->);
           apply select_count_inr in Hs as (? & ? & Hsrc' & Hw' & ->);
           rewrite Hsrc in Hsrc'; injection Hsrc' as <-;
           unfold fits in *; rewrite Hw in Hw'; injection Hw' as <-; done
       end.
Qed.

(** A run that returns [True] either got past its commit or found no
    row to move. *)
Lemma images_done w :
  run (migrate_images e) d = (inr true, w) →
  completed w ∨
  disk w = d ∧ select_count "ewcs_images" fits d = inr 0 ∧
  is_Some (tables d !! "oasc_images") ∧
  ∀ st, Execute st ∈ trace w → st ∈ image_steps.
Proof.
  unfold completed, image_steps.
  explore; intros [= <-]; cbn; try done.
  - left. member.
  - right. split; [done|]. split; [f_equal; lia|].
    split.
    { match goal with
      | H : select_count "oasc_images" None _ = inr _ |- _ =>
          apply select_count_inr in H as (? & ? & -> & _); eauto
      end. }
    intros st H.
    repeat (apply elem_of_cons in H as [H|H];
            [first [discriminate H | injection H as ->; member]|]).
    by apply elem_of_nil in H.
Qed.

(** Short of the commit, nothing reaches the file. *)
Lemma images_idle out w :
  run (migrate_images e) d = (out, w) →
  ¬ completed w → disk w = d.
Proof.
  unfold completed.
  explore; intros [= <- <-]; cbn; intros Hc; try done.
  all: exfalso; apply Hc; member.
Qed.
End images.


(** ** Copying rows by column name *)

Section copying.
Implicit Types (cs : list column) (r : row) (ns : list string).

Lemma filter_all {A} (f : A → bool) (l : list A) :
  (∀ x, f x = true) → filter (λ x, f x = true) l = l.
Proof.
  intros Hf. induction l as [|x l IH]; [done|].
  rewrite filter_cons_True by done. by rewrite IH.
Qed.

Lemma col_index_Some n cs j :
  col_index n cs = Some j → ∃ c, cs !! j = Some c ∧ cname c = n.
Proof.
  unfold col_index. destruct (list_find _ cs) as [[i c]|] eqn:Hf; [|done].
  intros [= <-]. apply list_find_Some in Hf as (? & ? & _). eauto.
Qed.

Lemma col_index_None n cs : col_index n cs = None ↔ n ∉ names cs.
Proof.
  unfold col_index, names. rewrite fmap_None, list_find_None, Forall_forall.
  rewrite list_elem_of_fmap. split.
  - intros Hall (c & -> & Hc). by apply (Hall c).
  - intros Hno c Hc Hn. apply Hno. by exists c.
Qed.

Lemma col_index_is_Some n cs : n ∈ names cs → is_Some (col_index n cs).
Proof.
  intros Hn. destruct (col_index n cs) eqn:Hc; [eauto|].
  by apply col_index_None in Hc.
Qed.

Lemma name_index_Some n ns k : name_index n ns = Some k → ns !! k = Some n.
Proof.
  unfold name_index. destruct (list_find _ ns) as [[i m]|] eqn:Hf; [|done].
  intros [= <-]. apply list_find_Some in Hf as (? & -> & _). done.
Qed.

Lemma name_index_is_Some n ns : n ∈ ns → is_Some (name_index n ns).
Proof.
  intros Hn. unfold name_index.
  destruct (list_find_elem_of (λ m, m = n) ns n Hn eq_refl) as [? ->]. eauto.
Qed.

Lemma cell_fmap {A} (g : A → value) (l : list A) j x :
  l !! j = Some x → cell (g <$> l) j = g x.
Proof. intros Hx. unfold cell. by rewrite list_lookup_fmap, Hx. Qed.

Lemma cell_project ix r k i : ix !! k = Some i → cell (project ix r) k = cell r i.
Proof. apply cell_fmap. Qed.

(** A copied cell is the cell of the source row in the column of the
    same name. *)
Lemma copied_field clk tcs scs ns ix r n :
  resolve scs ns = inr ix →
  n ∈ ns →
  n ∈ names tcs →
  field tcs (build_row clk tcs ns (project ix r)) n = field scs r n.
Proof.
  intros Hix%resolve_inr Hn Hc. unfold field.
  destruct (col_index_is_Some _ _ Hc) as [j Hj]. rewrite Hj. simpl.
  destruct (col_index_Some _ _ _ Hj) as (c & Hcj & <-).
  unfold build_row. rewrite (cell_fmap _ _ _ _ Hcj).
  destruct (name_index_is_Some _ _ Hn) as [k Hk]. rewrite Hk.
  apply name_index_Some in Hk.
  destruct (Forall2_lookup_l _ _ _ _ _ Hix Hk) as (i & Hi & Hci).
  by rewrite (cell_project _ _ _ _ Hi), Hci.
Qed.

(** What storing a row may change is the cell of the rowid column. *)
Lemma stored_field cs r r' n :
  stored_as cs r r' →
  col_index n cs ≠ rowid_col cs ∨ (∃ k, rowid_col cs = Some k ∧ cell r k ≠ VNull) →
  field cs r' n = field cs r n.
Proof.
  intros [->|(k & z & Hk & Hnull & ->)] Hn; [done|].
  unfold field. destruct (col_index n cs) as [j|] eqn:Hj; [|done]. simpl.
  destruct Hn as [Hn|(k' & Hk' & Hnn)].
  - unfold cell. rewrite list_lookup_insert_ne; [done|]. congruence.
  - congruence.
Qed.

Lemma singleton_list {A} (l : list A) x y :
  length l ≤ 1 → x ∈ l → y ∈ l → x = y.
Proof.
  destruct l as [|a [|b l]]; simpl; [by inversion 2| |lia].
  intros _ ->%list_elem_of_singleton ->%list_elem_of_singleton. done.
Qed.

(** In a well-formed table an integer primary key column is the rowid
    column, and holds integers. *)
Lemma wf_key t c i :
  wf_table t →
  c ∈ cols t → cpk c = true → lower (ctype c) = "integer" →
  col_index (cname c) (cols t) = Some i →
  rowid_col (cols t) = Some i ∧ Forall (λ r, is_int (cell r i)) (rows t).
Proof.
  intros (Hnd & Hone & _ & Hkey) Hc Hpk Hty Hi.
  unfold keyed in Hkey. unfold rowid_col in *.
  destruct (list_find_elem_of (λ c, cpk c = true ∧ lower (ctype c) = "integer")
              (cols t) c Hc (conj Hpk Hty)) as [[k c0] Hk].
  rewrite Hk in Hkey. rewrite Hk. simpl in *.
  apply list_find_Some in Hk as (Hk & [Hpk0 _] & _).
  assert (c0 = c) as ->.
  { apply (singleton_list _ _ _ Hone); apply list_elem_of_filter; split; try done.
    by eapply list_elem_of_lookup_2. }
  apply col_index_Some in Hi as (c' & Hi & Hname).
  assert (k = i) as ->.
  { eapply NoDup_lookup; [exact Hnd| |]; unfold names; rewrite list_lookup_fmap.
    - by rewrite Hk.
    - rewrite Hi. simpl. by rewrite Hname. }
  split; [done|]. by destruct Hkey.
Qed.
End copying.


(** ** The rewritten table *)

Section rewritten.
Variable s : script.

Lemma target_names : names (target s) = copied s.
Proof. by destruct s. Qed.

Lemma target_lacks_removed : removed s ∉ names (target s).
Proof. destruct s; apply (bool_decide_unpack _); by vm_compute. Qed.

Lemma target_key :
  id_column ∈ target s ∧ rowid_col (target s) = Some 0 ∧
  col_index "id" (target s) = Some 0 ∧ "id" ∈ copied s ∧ removed s ≠ "id".
Proof. destruct s; repeat split; try done; apply list_elem_of_here. Qed.

(** Statements 3 to 7 replace [ewcs_data] by a table with the columns
    of the script, holding the copies of its rows, and leave no other
    table behind. *)
Lemma swap_inr clk d d' :
  swap clk s d = inr d' →
  ∃ t ix rs,
    tables d !! "ewcs_data" = Some t ∧
    tables d !! "ewcs_data_new" = None ∧
    resolve (cols t) (copied s) = inr ix ∧
    store_rows (target s) []
      (build_row clk (target s) (copied s) <$> (project ix <$> rows t)) = inr rs ∧
    tables d' = <["ewcs_data" := Table (target s) rs]> (tables d).
Proof.
  unfold swap.
  destruct (create_table _ _ d) as [|d1] eqn:H1; [done|].
  destruct (insert_select _ _ _ _ _ _ d1) as [|[d2 n]] eqn:H2; [done|].
  destruct (drop_table _ d2) as [|d3] eqn:H3; [done|].
  destruct (rename_table _ _ d3) as [|d4] eqn:H4; [done|].
  intros H5%create_index_inr.
  apply create_table_inr in H1 as (Hnew & _ & ->).
  apply insert_select_inr in H2 as (tgt & t & ix & keep & rs & Htgt & Ht & Hix & Hw & Hrs & -> & _).
  apply drop_table_inr in H3 as [_ H3].
  apply rename_table_inr in H4 as (t4 & Ht4 & _ & H4).
  simpl in *. injection Hw as <-.
  rewrite lookup_insert_eq in Htgt. injection Htgt as <-.
  rewrite lookup_insert_ne in Ht by done.
  rewrite H3, lookup_delete_ne, lookup_insert_eq in Ht4 by done. injection Ht4 as <-.
  rewrite filter_all in Hrs by done.
  exists t, ix, rs. repeat split; try done.
  rewrite H5, H4, H3. apply map_eq. intros k.
  destruct (decide (k = "ewcs_data")) as [->|Hk]; [by rewrite !lookup_insert_eq|].
  rewrite !lookup_insert_ne by done.
  destruct (decide (k = "ewcs_data_new")) as [->|Hk']; [by rewrite lookup_delete_eq|].
  by rewrite !lookup_delete_ne, !lookup_insert_ne by done.
Qed.

Lemma Forall2_under {A B} (P : A → Prop) (R Q : A → B → Prop) l k :
  Forall P l → Forall2 R l k → (∀ x y, P x → R x y → Q x y) → Forall2 Q l k.
Proof.
  intros HP HR HQ. revert HP.
  induction HR; intros HP; inversion_clear HP; constructor; auto.
Qed.

(** The copy of a row of a well-formed table whose columns are those
    of the script and the removed one holds, under every other name, what
    the row held. *)
Lemma copy_keeps_fields clk t ix r r' :
  wf_table t →
  without (removed s) (cols t) = target s →
  resolve (cols t) (copied s) = inr ix →
  r ∈ rows t →
  stored_as (target s) (build_row clk (target s) (copied s) (project ix r)) r' →
  ∀ n, n ≠ removed s → field (target s) r' n = field (cols t) r n.
Proof.
  intros Hwf Hcols Hix Hr Hst n Hn.
  destruct target_key as (Hid & Hrow & Hidx & Hidc & _).
  assert (id_column ∈ cols t) as Hidt.
  { rewrite <- Hcols in Hid. by apply list_elem_of_filter in Hid as [_ ?]. }
  destruct (col_index_is_Some "id" (cols t)) as [i Hi].
  { unfold names. apply list_elem_of_fmap. by exists id_column. }
  destruct (wf_key t id_column i Hwf Hidt eq_refl eq_refl Hi) as [_ Hint].
  rewrite Forall_forall in Hint. specialize (Hint r Hr).
  rewrite (stored_field _ _ _ n Hst).
  - destruct (decide (n ∈ names (target s))) as [Hin|Hout].
    + apply copied_field; [done| |done]. by rewrite <- target_names.
    + unfold field. rewrite (proj2 (col_index_None n (target s)) Hout).
      assert (col_index n (cols t) = None) as ->; [|done].
      apply col_index_None. intros (c & -> & Hc)%list_elem_of_fmap.
      apply Hout. rewrite <- Hcols. apply list_elem_of_fmap. exists c.
      split; [done|]. by apply list_elem_of_filter.
  - right. exists 0. split; [done|].
    pose proof (copied_field clk (target s) (cols t) (copied s) ix r "id" Hix Hidc) as Hf.
    unfold field in Hf. rewrite Hidx, Hi in Hf. simpl in Hf.
    injection Hf as ->.
    + by destruct (cell r i).
    + rewrite target_names. done.
Qed.
End rewritten.


(** ** Moving rows between tables *)

Section moving.
Implicit Types (d : db) (src tgt : table).

Lemma where_fits cs keep :
  where_test cs fits = inr keep →
  ∃ i, col_index "filename" cs = Some i ∧ keep = λ r, like_fits (cell r i).
Proof.
  unfold where_test, fits. destruct (col_index "filename" cs) as [i|]; [|done].
  intros [= <-]. eauto.
Qed.

(** INSERT then DELETE: the FITS rows leave [ewcs_images], and their
    copies, as the engine stores them, follow the rows of [oasc_images]. *)
Lemma moved_tables clk d d1 d2 n1 n2 :
  insert_select clk "oasc_images" moved "ewcs_images" moved fits d = inr (d1, n1) →
  delete_where "ewcs_images" (LikeFits "filename") d1 = inr (d2, n2) →
  ∃ src tgt ix kept,
    tables d !! "ewcs_images" = Some src ∧
    tables d !! "oasc_images" = Some tgt ∧
    resolve (cols src) moved = inr ix ∧
    Forall2 (stored_as (cols tgt))
      (build_row clk (cols tgt) moved <$> (project ix <$> fits_rows src)) kept ∧
    tables d2 =
      <["ewcs_images" := Table (cols src) (other_rows src)]>
        (<["oasc_images" := Table (cols tgt) (rows tgt ++ kept)]> (tables d)) ∧
    indexes d2 = indexes d ∧
    n1 = length (fits_rows src) ∧ n2 = length (fits_rows src).
Proof.
  intros (tgt & src & ix & keep & rs & Htgt & Hsrc & Hix & Hw & Hrs & -> & ->)%insert_select_inr.
  intros (src' & keep' & Hsrc' & Hw' & -> & ->)%delete_where_inr.
  simpl in Hsrc'. rewrite lookup_insert_ne, Hsrc in Hsrc' by done. injection Hsrc' as <-.
  change (Some (LikeFits "filename")) with fits in Hw'.
  rewrite Hw in Hw'. injection Hw' as <-.
  apply where_fits in Hw as (i & Hi & ->).
  apply store_rows_inr in Hrs as (kept & -> & Hkept).
  exists src, tgt, ix, kept. unfold fits_rows, other_rows. rewrite Hi.
  by repeat split.
Qed.

Lemma stored_apart cs ns r r' :
  key_apart cs ns → stored_as cs r r' →
  ∀ n, n ∈ ns → field cs r' n = field cs r n.
Proof.
  intros Hk Hst n Hn. unfold key_apart in Hk. rewrite Forall_forall in Hk.
  destruct Hst as [->|(k & z & Hrow & _ & ->)]; [done|].
  destruct (Hk n Hn) as [Hne|Hnone]; [|congruence].
  unfold field. destruct (col_index n cs) as [j|]; [|done]. simpl.
  unfold cell. rewrite list_lookup_insert_ne; [done|]. congruence.
Qed.

(** A moved row holds in the target the three cells it held in the
    source. *)
Lemma moved_triple clk src tgt ix r r' :
  resolve (cols src) moved = inr ix →
  Forall (λ n, n ∈ names (cols tgt)) moved →
  key_apart (cols tgt) moved →
  stored_as (cols tgt) (build_row clk (cols tgt) moved (project ix r)) r' →
  triple (cols tgt) r' = triple (cols src) r.
Proof.
  intros Hix Hin Hk Hst. unfold triple.
  apply list_fmap_ext. intros j n Hn.
  assert (n ∈ moved) as Hn' by (by eapply list_elem_of_lookup_2).
  rewrite (stored_apart _ _ _ _ Hk Hst n Hn').
  apply copied_field; [done..|].
  rewrite Forall_forall in Hin. auto.
Qed.

Lemma filter_none_all {A} (P : A → Prop) `{∀ x, Decision (P x)} (l : list A) :
  filter P l = [] → filter (λ x, ¬ P x) l = l.
Proof.
  induction l as [|x l IH]; [done|].
  rewrite !filter_cons. destruct (decide (P x)); [done|].
  intros Hl. destruct (decide (¬ P x)); [|done]. by rewrite IH.
Qed.
End moving.

(** What a run of the image script that got past its commit, or returned
    [True], has made of the two tables. *)
Lemma images_moved e d out w :
  run (migrate_images e) d = (out, w) →
  completed w ∨ out = inr true →
  ∃ src tgt kept,
    tables d !! "ewcs_images" = Some src ∧
    tables d !! "oasc_images" = Some tgt ∧
    tables (disk w) =
      <["ewcs_images" := Table (cols src) (other_rows src)]>
        (<["oasc_images" := Table (cols tgt) (rows tgt ++ kept)]> (tables d)) ∧
    indexes (disk w) = indexes d ∧
    Forall2 (λ r r', key_apart (cols tgt) moved → triple (cols tgt) r' = triple (cols src) r)
      (fits_rows src) kept ∧
    (completed w →
       0 < length (fits_rows src) ∧
       Printed (LineCount "Migrated " (Z.of_nat (length (fits_rows src)))
                " FITS files to oasc_images") ∈ trace w ∧
       Printed (LineCount "Removed " (Z.of_nat (length (fits_rows src)))
                " FITS files from ewcs_images") ∈ trace w).
Proof.
  intros Hrun Hcase.
  destruct (decide (completed w)) as [Hc|Hnc].
  - destruct (images_completed e d out w Hrun Hc)
      as (d1 & n1 & n2 & Hins & Hdel & Hpos & Hp1 & Hp2 & _).
    destruct (insert_select_target _ _ _ _ _ _ _ _ Hins) as (tgt' & Htgt' & Hcols).
    destruct (moved_tables _ _ _ _ _ _ Hins Hdel)
      as (src & tgt & ix & kept & Hsrc & Htgt & Hix & Hkept & Htabs & Hidx & -> & ->).
    rewrite Htgt in Htgt'. injection Htgt' as <-.
    exists src, tgt, kept. repeat split; try done.
    rewrite <- list_fmap_compose, Forall2_fmap_l in Hkept.
    eapply Forall2_impl; [exact Hkept|]. intros r r' Hst Hk. simpl in Hst.
    by eapply moved_triple.
  - destruct Hcase as [ | -> ]; [done|].
    destruct (images_done e d w Hrun) as [|(Hd & Hcount & [tgt Htgt] & _)]; [done|].
    apply select_count_inr in Hcount as (src & keep & Hsrc & Hw & Hlen).
    apply where_fits in Hw as (i & Hi & ->).
    symmetry in Hlen. apply length_zero_iff_nil in Hlen.
    exists src, tgt, []. unfold fits_rows, other_rows. rewrite Hi, Hlen.
    rewrite (filter_none_all _ _ Hlen), app_nil_r, Hd.
    repeat split; try done.
    destruct src, tgt. simpl. by rewrite !insert_id by (by rewrite ?insert_id).
Qed.


(** * The claims

    ** The column-drop scripts *)

(** C1, amended.  Whenever a statement raises inside the transaction of a
    column-drop script, it is one of the seven statements from BEGIN to
    CREATE INDEX, the function returns [False] after a rollback, no
    transaction stays open, and the database file is exactly what it was
    before the call: [ewcs_data] has its schema and rows, and
    [ewcs_data_new] is there afterwards exactly if it was there before. *)
Theorem rollback_restores_database s e d out w st :
  run (migrate_column s e) d = (out, w) →
  raised_in_transaction (trace w) = Some st →
  st ∈ transaction_steps s ∧
  out = inr false ∧ Rollback ∈ trace w ∧ in_tx w = false ∧
  disk w = d ∧
  tables (disk w) !! "ewcs_data" = tables d !! "ewcs_data" ∧
  tables (disk w) !! "ewcs_data_new" = tables d !! "ewcs_data_new".
Proof.
  intros Hrun Hst.
  destruct (drop_undone s e d out w st Hrun Hst) as (? & ? & ? & ? & ? & ->).
  by repeat split.
Qed.

(** C1, witness: on a table that lacks [station_name] the copy raises, and
    the file is left as it was. *)
Lemma rollback_restores_database_witness :
  raised_in_transaction (trace (run (migrate_column Cs125Current calm) sparse).2)
    = Some (copy_rows Cs125Current) ∧
  disk (run (migrate_column Cs125Current calm) sparse).2 = sparse.
Proof.
  assert (raised_in_transaction (trace (run (migrate_column Cs125Current calm) sparse).2)
          = Some (copy_rows Cs125Current)) as H by (vm_compute; reflexivity).
  split; [exact H|].
  exact (proj1 (proj2 (proj2 (proj2 (proj2
    (rollback_restores_database Cs125Current calm sparse _ _ _
       (surjective_pairing _) H)))))).
Defined.

(** C1, counterexample to the claim as stated: when a table called
    [ewcs_data_new] is already there, CREATE TABLE raises inside the
    transaction, the rollback restores the file, and [ewcs_data_new] is
    still in the database. *)
Lemma sibling_table_survives_rollback :
  raised_in_transaction (trace (run (migrate_cs125_current calm) crowded).2)
    = Some (create_new Cs125Current) ∧
  is_Some (tables (disk (run (migrate_cs125_current calm) crowded).2) !! "ewcs_data_new").
Proof. split; [by vm_compute|]. vm_compute. eauto. Qed.

(** Each of the seven statements can be the one that raises. *)
Lemma every_step_can_raise :
  (λ k, raised_in_transaction (trace (run (migrate_cs125_current (failing k)) legacy).2))
    <$> seq 0 7
  = Some <$> transaction_steps Cs125Current.
Proof. by vm_compute. Qed.

(** C2, amended.  For every well-formed table whose columns are those the
    script declares plus the column it removes, a run that returns [True]
    leaves a table whose columns are the previous ones minus the removed
    column, in the same order, with as many rows, each row holding under
    every remaining column name the value it held before. *)
Theorem column_drop_keeps_rows s e d t w :
  tables d !! "ewcs_data" = Some t →
  wf_table t →
  removed s ∈ names (cols t) →
  without (removed s) (cols t) = target s →
  run (migrate_column s e) d = (inr true, w) →
  ∃ t',
    tables (disk w) !! "ewcs_data" = Some t' ∧
    cols t' = without (removed s) (cols t) ∧
    length (rows t') = length (rows t) ∧
    Forall2 (λ r r', ∀ n, n ≠ removed s → field (cols t') r' n = field (cols t) r n)
      (rows t) (rows t').
Proof.
  intros Ht Hwf Hin Hcols Hrun.
  assert (removed s ∈ names (table_info "ewcs_data" d)) as Hin'.
  { unfold table_info. by rewrite Ht. }
  pose proof (drop_done s e d w Hrun Hin') as Hc.
  destruct (drop_committed s e d _ w Hrun Hc) as (Hswap & _).
  apply swap_inr in Hswap as (t0 & ix & rs & Ht0 & _ & Hix & Hrs & Htabs).
  rewrite Ht in Ht0. injection Ht0 as <-.
  apply store_rows_inr in Hrs as (kept & -> & Hkept). simpl in Htabs.
  exists (Table (target s) kept). simpl.
  split; [rewrite Htabs; apply lookup_insert_eq|].
  split; [done|].
  rewrite <- list_fmap_compose, Forall2_fmap_l in Hkept.
  split; [symmetry; exact (Forall2_length _ _ _ Hkept)|].
  eapply (Forall2_under (λ r, r ∈ rows t)); [|exact Hkept|].
  - apply Forall_forall. auto.
  - intros r r' Hr Hst. simpl in Hst.
    by eapply copy_keeps_fields.
Qed.

(** C2, witness: dropping [cs125_current] from the legacy table. *)
Lemma column_drop_keeps_rows_witness :
  ∃ t', tables (disk (run (migrate_column Cs125Current calm) legacy).2) !! "ewcs_data" = Some t' ∧
        cols t' = without "cs125_current" legacy_columns ∧
        length (rows t') = 2.
Proof.
  destruct (column_drop_keeps_rows Cs125Current calm legacy
              (Table legacy_columns [legacy_row 1 1717243200; legacy_row 2 1717243260])
              (run (migrate_column Cs125Current calm) legacy).2)
    as (t' & H1 & H2 & H3 & _).
  - reflexivity.
  - apply (bool_decide_unpack _). vm_compute. reflexivity.
  - apply (bool_decide_unpack _). vm_compute. reflexivity.
  - vm_compute. reflexivity.
  - vm_compute. reflexivity.
  - exists t'. repeat split; assumption.
Defined.

(** C2, counterexample to the claim as stated: on the legacy table, which
    has both [power_save_mode] and [cs125_current], the script that drops
    [power_save_mode] returns [True] and leaves a table without
    [cs125_current] as well: its columns are not the previous ones minus
    the removed column. *)
Lemma other_columns_are_dropped_too :
  "power_save_mode" ∈ names (table_info "ewcs_data" legacy) ∧
  (run (migrate_power_save_mode calm) legacy).1 = inr true ∧
  names (table_info "ewcs_data" (disk (run (migrate_power_save_mode calm) legacy).2))
    ≠ names (without "power_save_mode" (table_info "ewcs_data" legacy)) ∧
  "cs125_current" ∈ names (without "power_save_mode" (table_info "ewcs_data" legacy)) ∧
  "cs125_current" ∉
    names (table_info "ewcs_data" (disk (run (migrate_power_save_mode calm) legacy).2)).
Proof.
  repeat split; try (apply (bool_decide_unpack _); by vm_compute).
Qed.

(** C3, amended.  When the column is already absent, the run leaves the
    database file as it was and sends no statement but BEGIN and the
    PRAGMA: a transaction is begun before the columns are read, and is
    dropped at close without a commit.  If the run returns [True] it has
    printed the nothing-to-migrate line and done nothing else, and it does
    return [True] when no call fails for an outside reason.  (The function
    returns a boolean, not a row count; no row is copied.) *)
Theorem nothing_to_migrate s e d out w :
  removed s ∉ names (table_info "ewcs_data" d) →
  run (migrate_column s e) d = (out, w) →
  disk w = d ∧
  (∀ st, Execute st ∈ trace w → st = Begin ∨ st = PragmaTableInfo "ewcs_data") ∧
  (out = inr true → trace w = noop_trace s) ∧
  (quiet e → out = inr true).
Proof. apply drop_absent. Qed.

(** C3, witness: the script for [power_save_mode] on a table without it. *)
Lemma nothing_to_migrate_witness :
  disk (run (migrate_column PowerSaveMode calm) migrated).2 = migrated ∧
  trace (run (migrate_column PowerSaveMode calm) migrated).2 = noop_trace PowerSaveMode.
Proof.
  destruct (nothing_to_migrate PowerSaveMode calm migrated
              (run (migrate_column PowerSaveMode calm) migrated).1
              (run (migrate_column PowerSaveMode calm) migrated).2)
    as (H1 & _ & H3 & H4).
  - apply (bool_decide_unpack _). vm_compute. reflexivity.
  - apply surjective_pairing.
  - split; [exact H1|]. apply H3, H4. split; [reflexivity|]. intros n. reflexivity.
Defined.

(** C3, counterexample to the claim as stated: with the column absent, the
    run that finds nothing to migrate has sent BEGIN. *)
Lemma noop_begins_a_transaction :
  ("power_save_mode" ∉ names (table_info "ewcs_data" migrated)) ∧
  (run (migrate_power_save_mode calm) migrated).1 = inr true ∧
  Execute Begin ∈ trace (run (migrate_power_save_mode calm) migrated).2.
Proof.
  repeat split; try (apply (bool_decide_unpack _); by vm_compute).
Qed.

(** C4, amended.  After a run that returned [True], the column is absent, so
    a second run leaves the file as the first left it and sends nothing but
    BEGIN and the PRAGMA; when no call of the second run fails for an
    outside reason it returns [True] through the nothing-to-migrate branch.
    And in an environment where no call fails for an outside reason, two
    runs leave the file as one run does, whatever the first returned. *)
Theorem second_run_is_noop s e1 e2 d out1 w1 out2 w2 :
  run (migrate_column s e1) d = (out1, w1) →
  run (migrate_column s e2) (disk w1) = (out2, w2) →
  (out1 = inr true →
     (removed s ∉ names (table_info "ewcs_data" (disk w1))) ∧
     disk w2 = disk w1 ∧
     (∀ st, Execute st ∈ trace w2 → st = Begin ∨ st = PragmaTableInfo "ewcs_data") ∧
     (quiet e2 → out2 = inr true ∧ trace w2 = noop_trace s)) ∧
  (quiet e1 → e2 = e1 → disk w2 = disk w1).
Proof.
  intros Hrun1 Hrun2.
  assert (out1 = inr true → removed s ∉ names (table_info "ewcs_data" (disk w1))) as Habs.
  { intros ->.
    destruct (decide (removed s ∈ names (table_info "ewcs_data" d))) as [Hin|Hout].
    - pose proof (drop_done s e1 d w1 Hrun1 Hin) as Hc.
      destruct (drop_committed s e1 d _ w1 Hrun1 Hc) as (Hswap & _).
      apply swap_inr in Hswap as (t & ix & rs & _ & _ & _ & _ & Htabs).
      unfold table_info. rewrite Htabs, lookup_insert_eq. simpl.
      apply target_lacks_removed.
    - destruct (drop_absent s e1 d _ w1 Hout Hrun1) as (-> & _). done. }
  assert (out1 = inr true → disk w2 = disk w1) as Hsame.
  { intros H1. by destruct (drop_absent s e2 (disk w1) out2 w2 (Habs H1) Hrun2). }
  split.
  - intros H1. specialize (Habs H1).
    destruct (drop_absent s e2 (disk w1) out2 w2 Habs Hrun2) as (Hd & Hst & Htr & Hq).
    repeat split; auto.
  - intros Hq ->.
    destruct (drop_quiet s e1 d out1 w1 Hq Hrun1) as [H1|(_ & Hd & _)]; [auto|].
    rewrite Hd in Hrun2. rewrite Hrun1 in Hrun2. by injection Hrun2 as _ <-.
Qed.

(** C4, witness: two runs on the legacy table. *)
Lemma second_run_is_noop_witness :
  trace (run (migrate_column Cs125Current calm)
           (disk (run (migrate_column Cs125Current calm) legacy).2)).2
  = noop_trace Cs125Current.
Proof.
  destruct (second_run_is_noop Cs125Current calm calm legacy _ _ _ _
              (surjective_pairing _) (surjective_pairing _)) as [H _].
  destruct H as (_ & _ & _ & H); [by vm_compute|].
  apply H. split; [reflexivity|]. intros n. reflexivity.
Defined.

(** C4, counterexample to the claim as stated: on a table that has the
    column but lacks [station_name], the first run fails and is rolled
    back; the second run finds the column still there, does not take the
    nothing-to-migrate branch, and sends CREATE TABLE again. *)
Lemma failed_first_run_is_repeated :
  (run (migrate_cs125_current calm) sparse).1 = inr false ∧
  "cs125_current" ∈
    names (table_info "ewcs_data" (disk (run (migrate_cs125_current calm) sparse).2)) ∧
  Execute (create_new Cs125Current) ∈
    trace (run (migrate_cs125_current calm)
             (disk (run (migrate_cs125_current calm) sparse).2)).2 ∧
  (Printed (nothing_line Cs125Current) ∉
    trace (run (migrate_cs125_current calm)
             (disk (run (migrate_cs125_current calm) sparse).2)).2).
Proof.
  repeat split; try (apply (bool_decide_unpack _); by vm_compute).
Qed.

(** C5, amended.  When the column to remove is the table's integer primary
    key, the script does not reject the request: as for any other column it
    goes on to create the sibling table, and (no call failing for an
    outside reason) it either returns [True] or returns [False] because
    one of its statements raised in the engine. *)
Theorem primary_key_is_not_validated s e d t k out w :
  quiet e →
  tables d !! "ewcs_data" = Some t →
  rowid_col (cols t) = Some k →
  col_index (removed s) (cols t) = Some k →
  run (migrate_column s e) d = (out, w) →
  Execute (create_new s) ∈ trace w ∧
  (out = inr true ∨ out = inr false ∧ is_Some (raised_in_transaction (trace w))).
Proof.
  intros Hq Ht _ Hk Hrun. split.
  - apply (drop_proceeds s e d out w Hq); [|done].
    unfold table_info. rewrite Ht.
    destruct (col_index (removed s) (cols t)) eqn:Hc; [|done].
    destruct (decide (removed s ∈ names (cols t))) as [|Hn]; [done|].
    apply col_index_None in Hn. congruence.
  - destruct (drop_quiet s e d out w Hq Hrun) as [|(? & _ & ?)]; auto.
Qed.

(** C5, witness: a table keyed on [cs125_current]. *)
Lemma primary_key_is_not_validated_witness :
  Execute (create_new Cs125Current) ∈
    trace (run (migrate_column Cs125Current calm) keyed_on_removed).2.
Proof.
  refine (proj1 (primary_key_is_not_validated Cs125Current calm keyed_on_removed
            _ 0 _ _ _ _ _ _ (surjective_pairing _))).
  - split; [reflexivity|]. intros n. reflexivity.
  - reflexivity.
  - vm_compute. reflexivity.
  - vm_compute. reflexivity.
Defined.

(** C5, counterexample to the claim as stated: on a table whose integer
    primary key is [cs125_current], the run returns [True] and the key
    column is gone. *)
Lemma primary_key_column_is_dropped :
  rowid_col (table_info "ewcs_data" keyed_on_removed)
    = col_index "cs125_current" (table_info "ewcs_data" keyed_on_removed) ∧
  is_Some (rowid_col (table_info "ewcs_data" keyed_on_removed)) ∧
  (run (migrate_cs125_current calm) keyed_on_removed).1 = inr true ∧
  ("cs125_current" ∉
    names (table_info "ewcs_data"
             (disk (run (migrate_cs125_current calm) keyed_on_removed).2))).
Proof.
  split; [by vm_compute|]. split; [vm_compute; eauto|].
  split; [by vm_compute|]. apply (bool_decide_unpack _). by vm_compute.
Qed.

(** C7, amended.  Once the commit has gone through, no transaction is open,
    the only statement sent is the PRAGMA, and the file holds the rewritten
    table whatever happens next.  Either the run returns [True] without any
    rollback, or the verification raised: then the [except] block does call
    rollback, which undoes nothing, and the function returns [False]. *)
Theorem verification_follows_commit s e d out w :
  run (migrate_column s e) d = (out, w) →
  committed s w →
  swap (clock e) s d = inr (disk w) ∧
  in_tx w = false ∧
  (∀ st, Execute st ∈ after_commit (trace w) → st = PragmaTableInfo "ewcs_data") ∧
  (out = inr true ∧ (Rollback ∉ trace w)
   ∨ out = inr false ∧ caught w ∧ Rollback ∈ after_commit (trace w)).
Proof.
  intros Hrun Hc.
  destruct (drop_committed s e d out w Hrun Hc) as (? & _ & ? & _ & ? & Hout).
  repeat split; try done. destruct Hout as [(? & ? & _)|(? & ? & ?)]; auto.
Qed.

(** C7, witness: the PRAGMA after the commit fails; the file holds the
    rewritten table. *)
Lemma verification_follows_commit_witness :
  swap (clock (failing 8)) Cs125Current legacy
  = inr (disk (run (migrate_column Cs125Current (failing 8)) legacy).2).
Proof.
  refine (proj1 (verification_follows_commit Cs125Current (failing 8) legacy _ _
                   (surjective_pairing _) _)).
  unfold committed. apply (bool_decide_unpack _). vm_compute. reflexivity.
Defined.

(** C7, counterexample to the claim as stated: the commit went through, the
    PRAGMA after it raised, and rollback was called after the commit. *)
Lemma failed_verification_calls_rollback :
  committed Cs125Current (run (migrate_cs125_current (failing 8)) legacy).2 ∧
  (run (migrate_cs125_current (failing 8)) legacy).1 = inr false ∧
  Rollback ∈ after_commit (trace (run (migrate_cs125_current (failing 8)) legacy).2).
Proof.
  unfold committed.
  repeat split; try (apply (bool_decide_unpack _); by vm_compute).
Qed.


(** ** The [__main__] blocks *)

Lemma main_power_save_mode_confirmed argv stdin e d :
  confirmed argv stdin →
  (run (main_power_save_mode argv stdin e) d).1
    = exit_of (run (migrate_power_save_mode e) d).1 ∧
  disk (run (main_power_save_mode argv stdin e) d).2
    = disk (run (migrate_power_save_mode e) d).2.
Proof.
  unfold main_power_save_mode, migrate_power_save_mode.
  unfold run at 1 3. unfold bind, print, input, ret, record, boot.
  intros [Ha|(r & -> & Hr)].
  - rewrite Ha. cbn. rewrite drop_frame. cbn.
    destruct (run _ d) as [[x|[|]] w]; by split.
  - destruct (auto_confirm argv); cbn.
    + rewrite drop_frame. cbn.
      destruct (run _ d) as [[x|[|]] w]; by split.
    + rewrite bool_decide_eq_false_2 by (by intros []). cbn.
      rewrite drop_frame. cbn.
      destruct (run _ d) as [[x|[|]] w]; by split.
Qed.

Lemma main_power_save_mode_declined argv stdin e d :
  declined argv stdin →
  (run (main_power_save_mode argv stdin e) d).1 = inr 0%Z ∧
  disk (run (main_power_save_mode argv stdin e) d).2 = d ∧
  ∀ ev, ev ∈ trace (run (main_power_save_mode argv stdin e) d).2 →
        (∃ m, ev = Printed m) ∨ (∃ p, ev = Input p).
Proof.
  unfold main_power_save_mode, run, bind, print, input, ret, record, boot.
  intros (Ha & r & -> & Hr). rewrite Ha. cbn.
  rewrite bool_decide_eq_true_2 by done. cbn.
  repeat split. intros ev H.
  repeat (apply elem_of_cons in H as [->|H]; [eauto|]). by apply elem_of_nil in H.
Qed.

(** C8.  For all arguments, inputs, environments and databases, the process
    of [migrate_power_save_mode.py] exits with 0 when the operator declines
    at the prompt (and the file is untouched) and when, going ahead, the
    migration returns [True]; it exits with 1 when, going ahead, the
    [except] block of the migration caught a failure. *)
Theorem exit_codes argv stdin e d :
  (declined argv stdin →
     status (main_power_save_mode argv stdin e) d = 0%Z ∧
     disk (run (main_power_save_mode argv stdin e) d).2 = d) ∧
  (confirmed argv stdin →
     (run (migrate_power_save_mode e) d).1 = inr true →
     status (main_power_save_mode argv stdin e) d = 0%Z) ∧
  (confirmed argv stdin →
     caught (run (migrate_power_save_mode e) d).2 →
     status (main_power_save_mode argv stdin e) d = 1%Z).
Proof.
  unfold status. repeat split.
  - destruct (main_power_save_mode_declined argv stdin e d H) as (-> & _). done.
  - by destruct (main_power_save_mode_declined argv stdin e d H) as (_ & -> & _).
  - intros Hc Hok.
    destruct (main_power_save_mode_confirmed argv stdin e d Hc) as [-> _].
    by rewrite Hok.
  - intros Hc Hcaught.
    destruct (main_power_save_mode_confirmed argv stdin e d Hc) as [-> _].
    unfold migrate_power_save_mode in *.
    destruct (drop_outcome PowerSaveMode e d _ _ (surjective_pairing _))
      as [(_ & Hn & _)|[(-> & _)|(-> & _)]]; done.
Qed.

(** C8, witness: auto-confirmed success, a declined prompt, and a caught
    failure. *)
Lemma exit_codes_witness :
  status (main_power_save_mode ["migrate_power_save_mode.py"; "-y"] None calm) legacy = 0%Z ∧
  status (main_power_save_mode ["migrate_power_save_mode.py"] (Some "n") calm) legacy = 0%Z ∧
  status (main_power_save_mode ["migrate_power_save_mode.py"] (Some "Y") (failing 3)) legacy = 1%Z.
Proof.
  split; [|split].
  - apply (proj1 (proj2 (exit_codes _ None calm legacy))).
    + left. reflexivity.
    + vm_compute. reflexivity.
  - apply (proj1 (exit_codes _ (Some "n") calm legacy)).
    split; [reflexivity|]. exists "n". split; [reflexivity|]. vm_compute. discriminate.
  - apply (proj2 (proj2 (exit_codes _ (Some "Y") (failing 3) legacy))).
    + right. exists "Y". split; reflexivity.
    + exists (EngineFault 3). apply (bool_decide_unpack _). vm_compute. exact I.
Defined.

(** C6.  When the database file cannot be opened and the operator has
    confirmed, the error line is printed, the process exits with status 1,
    rollback is never called, no statement is sent (no transaction was
    open), and the file is untouched.  (The status is 1 because the
    [except] block, after printing, reads the unbound [conn] and dies of
    [UnboundLocalError].) *)
Theorem unopened_database_exits_nonzero response e d :
  opens e = false →
  lower response = "y" →
  status (main_cs125_current (Some response) e) d = 1%Z ∧
  Printed (LineError CannotOpen) ∈ trace (run (main_cs125_current (Some response) e) d).2 ∧
  (Rollback ∉ trace (run (main_cs125_current (Some response) e) d).2) ∧
  (∀ st, Execute st ∉ trace (run (main_cs125_current (Some response) e) d).2) ∧
  disk (run (main_cs125_current (Some response) e) d).2 = d.
Proof.
  intros Ho Hy.
  unfold status, main_cs125_current, migrate_cs125_current.
  unfold run at 1 2 3 4 5. unfold bind, print, input, ret, record, boot.
  cbn. rewrite (bool_decide_eq_true_2 _ Hy). cbn.
  rewrite drop_frame, (drop_closed _ _ _ Ho). cbn.
  repeat split.
  - member.
  - intros H. nowhere H.
  - intros st H. nowhere H.
Qed.

(** C6, witness. *)
Lemma unopened_database_exits_nonzero_witness :
  status (main_cs125_current (Some "y") closed_door) legacy = 1%Z.
Proof.
  apply (unopened_database_exits_nonzero "y" closed_door legacy); reflexivity.
Defined.


(** ** The image script *)







(** * Further properties

    ** Runs of the column-drop scripts *)

Section column_drop_runs.
Variables (s : script) (e : env) (d : db).

(** Short of the commit, nothing reaches the file. *)
Lemma drop_idle out w :
  run (migrate_column s e) d = (out, w) →
  ¬ committed s w → disk w = d.
Proof.
  unfold committed.
  explore; intros [= <- <-]; cbn; intros Hc; try done.
  all: exfalso; apply Hc; member.
Qed.

(** A run that opened the connection ends by closing it, with no
    transaction open and nothing pending. *)
Lemma drop_closes out w :
  run (migrate_column s e) d = (out, w) →
  opens e = true →
  last (trace w) = Some Close ∧ in_tx w = false ∧ view w = disk w.
Proof.
  explore; intros [= <- <-]; cbn; try done.
Qed.

(** The trace of a run that returns [True] having found the column. *)
Lemma drop_trace w :
  run (migrate_column s e) d = (inr true, w) →
  removed s ∈ names (table_info "ewcs_data" d) →
  ∃ d1 d2 n,
    create_table "ewcs_data_new" (target s) d = inr d1 ∧
    insert_select (clock e) "ewcs_data_new" (copied s) "ewcs_data" (copied s) None d1
      = inr (d2, n) ∧
    trace w =
      [ Connect "data/ewcs.db"; Execute Begin; Execute (PragmaTableInfo "ewcs_data");
        Printed (found_line s);
        Printed (LineNames "Current columns:" (names (table_info "ewcs_data" d)));
        Execute (create_new s); Execute (copy_rows s);
        Printed (LineCount "Migrated " (Z.of_nat n) " rows to new table");
        Execute (DropTable "ewcs_data"); Execute (RenameTable "ewcs_data_new" "ewcs_data");
        Execute recreate_index; Commit; Printed (success_line s);
        Execute (PragmaTableInfo "ewcs_data");
        Printed (LineNames "New columns:" (names (table_info "ewcs_data" (disk w))));
        Close ].
Proof.
  explore; intros [= <-]; cbn; try done. intros _.
  eexists _, _, _. by repeat split.
Qed.

End column_drop_runs.


(** ** Storing rows *)

Section storing.
Implicit Types (cs : list column) (rs new : list row) (r : row).

Lemma rowid_col_lt cs k : rowid_col cs = Some k → k < length cs.
Proof.
  unfold rowid_col. intros ([j c] & Hf & [= <-])%fmap_Some.
  apply list_find_Some in Hf as (Hj & _). by eapply lookup_lt_Some.
Qed.

Lemma keys_app k rs rs' : keys k (rs ++ rs') = keys k rs ++ keys k rs'.
Proof. apply omap_app. Qed.

Lemma keys_int k r z : cell r k = VInt z → keys k [r] = [z].
Proof. intros H. unfold keys. simpl. by rewrite H. Qed.

(** The key the engine assigns is above every key in use. *)
Lemma fresh_key_above k rs z : z ∈ keys k rs → (z < fresh_key k rs)%Z.
Proof.
  unfold fresh_key. destruct (keys k rs) as [|y l]; [by inversion 1|].
  assert ((y ≤ foldr Z.max y l)%Z ∧ ∀ x, x ∈ l → (x ≤ foldr Z.max y l)%Z) as [Hy Hl].
  { induction l as [|a l [IH1 IH2]]; simpl; (split; [lia|]).
    - by inversion 1.
    - intros x [->|Hx]%elem_of_cons; [lia|]. specialize (IH2 x Hx). lia. }
  intros [->|Hz]%elem_of_cons; [lia|]. specialize (Hl z Hz). lia.
Qed.

Lemma null_violation_None cs r :
  null_violation cs r = None ↔
  ∀ j c v, cs !! j = Some c → r !! j = Some v → ¬ (cnotnull c = true ∧ v = VNull).
Proof.
  unfold null_violation. rewrite fmap_None, list_find_None, Forall_lookup. split.
  - intros H j c v Hc Hv. apply (H j (c, v)).
    apply lookup_zip_with_Some. eauto.
  - intros H j [c v] Hj.
    apply lookup_zip_with_Some in Hj as (c' & v' & [= <- <-] & Hc & Hv). eauto.
Qed.

(** Storing a row of the right length keeps the table well keyed and
    yields a row that fits the schema. *)
Lemma store_row_keeps cs rs r r' :
  store_row cs rs r = inr r' →
  length r = length cs →
  keyed (Table cs rs) →
  length r' = length cs ∧ null_violation cs r' = None ∧ keyed (Table cs (rs ++ [r'])).
Proof.
  unfold store_row, keyed. simpl. intros Hst Hlen Hk.
  destruct (rowid_col cs) as [k|] eqn:Hrow.
  - pose proof (rowid_col_lt _ _ Hrow) as Hlt.
    destruct Hk as [Hint Hnd].
    destruct (cell r k) eqn:Hcell; try done.
    + destruct (null_violation cs _) eqn:Hnull; [done|]. injection Hst as <-.
      assert (cell (<[k:=VInt (fresh_key k rs)]> r) k = VInt (fresh_key k rs)) as Hc.
      { unfold cell. rewrite list_lookup_insert_eq by lia. done. }
      rewrite length_insert. repeat split; try done.
      * apply Forall_app. split; [done|]. constructor; [|done]. by rewrite Hc.
      * rewrite keys_app, (keys_int _ _ _ Hc). apply NoDup_app. repeat split; [done| |].
        -- intros z Hz ->%list_elem_of_singleton.
           apply fresh_key_above in Hz. lia.
        -- apply NoDup_singleton.
    + case_bool_decide as Hz; [done|].
      destruct (null_violation cs r) eqn:Hnull; [done|]. injection Hst as <-.
      repeat split; try done.
      * apply Forall_app. split; [done|]. constructor; [|done]. by rewrite Hcell.
      * rewrite keys_app, (keys_int _ _ _ Hcell). apply NoDup_app. repeat split; [done| |].
        -- by intros y Hy ->%list_elem_of_singleton.
        -- apply NoDup_singleton.
  - destruct (null_violation cs r) eqn:Hnull; [done|]. by injection Hst as <-.
Qed.

Lemma store_rows_keeps cs rs new out :
  store_rows cs rs new = inr out →
  Forall (λ r, length r = length cs) new →
  Forall (λ r, length r = length cs ∧ null_violation cs r = None) rs →
  keyed (Table cs rs) →
  Forall (λ r, length r = length cs ∧ null_violation cs r = None) out ∧
  keyed (Table cs out).
Proof.
  revert rs. induction new as [|r new IH]; intros rs; simpl.
  - by intros [= <-].
  - destruct (store_row cs rs r) as [|r'] eqn:Hr; [done|].
    intros Hout Hnew Hrs Hk. inversion_clear Hnew as [|?? Hlen Hnew'].
    destruct (store_row_keeps _ _ _ _ Hr Hlen Hk) as (? & ? & ?).
    apply (IH _ Hout Hnew'); [|done].
    apply Forall_app. split; [done|]. by constructor.
Qed.

End storing.


(** ** The indexes and the steps of the rewrite *)

Section rewriting.
Variable s : script.

Lemma drop_table_indexes name d d' :
  drop_table name d = inr d' →
  indexes d' = filter (λ kv : string * (string * string), kv.2.1 ≠ name) (indexes d).
Proof. unfold drop_table. destruct (tables d !! name); naive_solver. Qed.

Lemma rename_table_indexes old new d d' :
  rename_table old new d = inr d' →
  indexes d' =
    (λ tc : string * string, if bool_decide (tc.1 = old) then (new, tc.2) else tc)
      <$> indexes d.
Proof.
  unfold rename_table. destruct (tables d !! old); [|done].
  destruct (tables d !! new), (indexes d !! new); naive_solver.
Qed.

Lemma create_index_indexes i name c d d' :
  create_index_if_not_exists i name c d = inr d' →
  indexes d' = match indexes d !! i with
               | Some _ => indexes d
               | None => <[i := (name, c)]> (indexes d)
               end.
Proof.
  unfold create_index_if_not_exists.
  destruct (tables d !! name) as [t|]; [|done].
  destruct (tables d !! i); [done|].
  destruct (indexes d !! i); [naive_solver|].
  destruct (col_index c (cols t)); naive_solver.
Qed.

Lemma swap_indexes clk d d' :
  swap clk s d = inr d' →
  indexes d' = match surviving (indexes d) !! index_name with
               | Some _ => surviving (indexes d)
               | None => <[index_name := ("ewcs_data", "timestamp")]> (surviving (indexes d))
               end.
Proof.
  unfold swap.
  destruct (create_table _ _ d) as [|d1] eqn:H1; [done|].
  destruct (insert_select _ _ _ _ _ _ d1) as [|[d2 n]] eqn:H2; [done|].
  destruct (drop_table _ d2) as [|d3] eqn:H3; [done|].
  destruct (rename_table _ _ d3) as [|d4] eqn:H4; [done|].
  intros H5%create_index_indexes.
  apply create_table_inr in H1 as (_ & _ & ->).
  apply insert_select_inr in H2 as (? & ? & ? & ? & ? & _ & _ & _ & _ & _ & -> & _).
  apply drop_table_indexes in H3. apply rename_table_indexes in H4.
  simpl in *. rewrite H5, H4, H3. done.
Qed.

Lemma surviving_lookup ix i :
  surviving ix !! i =
  match ix !! i with
  | Some (t, c) =>
      if bool_decide (t = "ewcs_data") then None
      else if bool_decide (t = "ewcs_data_new") then Some ("ewcs_data", c)
      else Some (t, c)
  | None => None
  end.
Proof.
  unfold surviving. rewrite lookup_fmap.
  destruct (ix !! i) as [[t c]|] eqn:Hi.
  - case_bool_decide as Ht.
    + rewrite (proj2 (map_lookup_filter_None _ _ _)); [done|].
      right. intros tc Htc. rewrite Hi in Htc. injection Htc as <-. simpl. tauto.
    + rewrite (proj2 (map_lookup_filter_Some _ _ _ (t, c))); [|done]. simpl.
      by case_bool_decide.
  - rewrite (proj2 (map_lookup_filter_None _ _ _)); [done|]. by left.
Qed.
End rewriting.


(** ** The columns of the new table *)

Lemma target_timestamp s :
  col_index "timestamp" (target s) = Some 1 ∧ NoDup (names (target s)) ∧
  length (filter (λ c, cpk c = true) (target s)) ≤ 1 ∧
  Forall (λ n, n ∈ names (target s)) (copied s).
Proof.
  destruct s; repeat split; try done; try (apply (bool_decide_unpack _); by vm_compute).
  all: simpl; lia.
Qed.

(** The scripts spell the columns they copy in lower case. *)
Lemma copied_lowercase s n : n ∈ copied s → lower n = n.
Proof.
  assert (Forall (λ n, lower n = n) (copied s)) as H
    by (destruct s; apply (bool_decide_unpack _); by vm_compute).
  rewrite Forall_forall in H. auto.
Qed.

(** A name in lower case that no column bears, case apart, is the name
    of no column. *)
Lemma not_named n (ns : list string) : lower n = n → n ∉ lower <$> ns → n ∉ ns.
Proof.
  intros Hn Hno Hin. apply Hno. rewrite <- Hn. apply list_elem_of_fmap. eauto.
Qed.

(** ** The column-drop scripts: further properties *)

Lemma resolve_names cs ns ix :
  resolve cs ns = inr ix → Forall (λ n, n ∈ names cs) ns.
Proof.
  intros H%resolve_inr. induction H as [|n i ns ix Hn _ IH]; constructor; [|done].
  destruct (col_index_Some _ _ _ Hn) as (c & Hc & <-).
  apply list_elem_of_fmap. exists c. split; [done|]. by eapply list_elem_of_lookup_2.
Qed.

Lemma keyed_empty cs : keyed (Table cs []).
Proof. unfold keyed. simpl. destruct (rowid_col cs); [|done]. split; constructor. Qed.

(** The table a successful rewrite leaves is well formed. *)
Lemma swap_well_formed clk s d d' :
  swap clk s d = inr d' →
  ∃ t', tables d' !! "ewcs_data" = Some t' ∧ cols t' = target s ∧ wf_table t'.
Proof.
  intros (t & ix & rs & _ & _ & _ & Hrs & Htabs)%swap_inr.
  exists (Table (target s) rs). split; [by rewrite Htabs, lookup_insert_eq|].
  split; [done|].
  destruct (target_timestamp s) as (_ & Hnd & Hpk & _).
  destruct (store_rows_keeps _ _ _ _ Hrs) as [Hrows Hk].
  - apply Forall_fmap, Forall_forall. intros r _. simpl.
    unfold build_row. by rewrite length_fmap.
  - constructor.
  - apply keyed_empty.
  - by repeat split.
Qed.

(** X1.  Every run of a column-drop script is all or nothing: the database
    file is either what it was before the call or the result of the five
    statements of the rewrite, all of them. *)
Theorem column_drop_is_all_or_nothing s e d out w :
  run (migrate_column s e) d = (out, w) →
  disk w = d ∨ swap (clock e) s d = inr (disk w).
Proof.
  intros Hrun. destruct (decide (Printed (success_line s) ∈ trace w)) as [Hc|Hnc];
    fold (committed s w) in *.
  - right. by destruct (drop_committed s e d out w Hrun Hc) as (? & _).
  - left. by eapply drop_idle.
Qed.

(** X1, witness: the commit fails; the file is as before. *)
Lemma column_drop_is_all_or_nothing_witness :
  disk (run (migrate_column Cs125Current (failing 7)) legacy).2 = legacy.
Proof.
  destruct (column_drop_is_all_or_nothing Cs125Current (failing 7) legacy _ _
              (surjective_pairing _)) as [H|H].
  - exact H.
  - vm_compute. reflexivity.
Defined.

(** X2.  Whatever a run of a column-drop script does, every table of the
    database other than [ewcs_data] (the engine's own [sqlite_] tables
    apart, which are not modelled) is afterwards what it was before, and so
    is every index on a table other than [ewcs_data] and [ewcs_data_new].
    Names are told apart without regard to case, as the engine does. *)
Theorem other_tables_are_untouched s e d out w :
  run (migrate_column s e) d = (out, w) →
  (∀ k, lower k ≠ "ewcs_data" → ¬ internal k →
        tables (disk w) !! k = tables d !! k) ∧
  (∀ i t c, lower t ≠ "ewcs_data" → lower t ≠ "ewcs_data_new" →
     indexes d !! i = Some (t, c) → indexes (disk w) !! i = Some (t, c)).
Proof.
  intros Hrun. destruct (decide (Printed (success_line s) ∈ trace w)) as [Hc|Hnc];
    fold (committed s w) in *.
  - destruct (drop_committed s e d out w Hrun Hc) as (Hswap & _).
    pose proof (swap_indexes s _ _ _ Hswap) as Hidx.
    apply swap_inr in Hswap as (t & ix & rs & _ & _ & _ & _ & Htabs).
    split.
    + intros k Hk _. rewrite Htabs, lookup_insert_ne; [done|].
      intros <-. by apply Hk.
    + intros i t' c Ht1 Ht2 Hi.
      assert (t' ≠ "ewcs_data") as Hne1 by (intros ->; by apply Ht1).
      assert (t' ≠ "ewcs_data_new") as Hne2 by (intros ->; by apply Ht2).
      assert (surviving (indexes d) !! i = Some (t', c)) as Hs.
      { rewrite surviving_lookup, Hi.
        by rewrite !bool_decide_eq_false_2. }
      rewrite Hidx. destruct (surviving (indexes d) !! index_name) eqn:Hn; [done|].
      rewrite lookup_insert_ne; [done|]. intros <-. congruence.
  - rewrite (drop_idle s e d out w Hrun Hnc). by split.
Qed.

(** X2, witness: a run that rewrites [ewcs_data] beside a table of images
    and its index. *)
Lemma other_tables_are_untouched_witness :
  (run (migrate_column Cs125Current calm) station).1 = inr true ∧
  tables (disk (run (migrate_column Cs125Current calm) station).2) !! "ewcs_images"
    = tables station !! "ewcs_images" ∧
  indexes (disk (run (migrate_column Cs125Current calm) station).2)
    !! "idx_ewcs_images_timestamp" = Some ("ewcs_images", "timestamp").
Proof.
  destruct (other_tables_are_untouched Cs125Current calm station _ _
              (surjective_pairing _)) as [H1 H2].
  split; [by vm_compute|]. split.
  - apply H1; by vm_compute.
  - apply H2; [by vm_compute|by vm_compute|reflexivity].
Defined.

(** X3.  After a run that found the column and returned [True], the index
    [idx_ewcs_data_timestamp] is on [ewcs_data(timestamp)], provided no
    index of that name, case apart, was on another table before (CREATE
    INDEX IF NOT EXISTS would leave such an index alone); every index of
    another name that was on [ewcs_data] is gone. *)
Theorem timestamp_index_is_recreated s e d w :
  run (migrate_column s e) d = (inr true, w) →
  removed s ∈ names (table_info "ewcs_data" d) →
  ((∀ i t c, indexes d !! i = Some (t, c) → lower i = index_name → t = "ewcs_data") →
     indexes (disk w) !! index_name = Some ("ewcs_data", "timestamp")) ∧
  (∀ i c, lower i ≠ index_name → indexes d !! i = Some ("ewcs_data", c) →
     indexes (disk w) !! i = None).
Proof.
  intros Hrun Hin.
  pose proof (drop_done s e d w Hrun Hin) as Hc.
  destruct (drop_committed s e d _ w Hrun Hc) as (Hswap & _).
  apply swap_indexes in Hswap. split.
  - intros Hon.
    assert (surviving (indexes d) !! index_name = None) as Hs.
    { rewrite surviving_lookup.
      destruct (indexes d !! index_name) as [[t c]|] eqn:Hi; [|done].
      by rewrite (Hon index_name t c Hi eq_refl), bool_decide_eq_true_2. }
    rewrite Hswap, Hs. apply lookup_insert_eq.
  - intros i c Hi Hic.
    assert (i ≠ index_name) as Hne by (intros ->; by apply Hi).
    assert (surviving (indexes d) !! i = None) as Hs.
    { by rewrite surviving_lookup, Hic, bool_decide_eq_true_2. }
    rewrite Hswap. destruct (surviving (indexes d) !! index_name); [done|].
    by rewrite lookup_insert_ne.
Qed.

(** X3, witness: the index of the legacy table. *)
Lemma timestamp_index_is_recreated_witness :
  indexes (disk (run (migrate_column Cs125Current calm) legacy).2) !! index_name
  = Some ("ewcs_data", "timestamp").
Proof.
  refine (proj1 (timestamp_index_is_recreated Cs125Current calm legacy _ _ _) _).
  - vm_compute. reflexivity.
  - apply (bool_decide_unpack _). vm_compute. exact I.
  - intros i t c Hi _. unfold legacy in Hi. simpl in Hi.
    apply lookup_singleton_Some in Hi as [_ Hi]. by injection Hi as <- _.
Defined.

(** X4.  A run that finds the column to remove, but no column that bears,
    case apart, one of the names it copies, or finds a table called
    [ewcs_data_new] already there, does not return [True] and leaves the
    database file as it was. *)
Theorem unfit_table_is_left_alone s e d t n out w :
  tables d !! "ewcs_data" = Some t →
  removed s ∈ names (cols t) →
  n ∈ copied s ∧ (n ∉ lower <$> names (cols t))
    ∨ is_Some (tables d !! "ewcs_data_new") →
  run (migrate_column s e) d = (out, w) →
  out ≠ inr true ∧ disk w = d.
Proof.
  intros Ht Hin Hbad Hrun.
  assert (removed s ∈ names (table_info "ewcs_data" d)) as Hin'.
  { unfold table_info. by rewrite Ht. }
  assert (¬ committed s w) as Hnc.
  { intros Hc. destruct (drop_committed s e d out w Hrun Hc) as (Hswap & _).
    apply swap_inr in Hswap as (t0 & ix & rs & Ht0 & Hnew & Hix & _).
    rewrite Ht in Ht0. injection Ht0 as <-.
    destruct Hbad as [[Hn Hno]|[? Hsome]]; [|congruence].
    apply (not_named n (names (cols t))); [by eapply copied_lowercase|done|].
    apply resolve_names in Hix. rewrite Forall_forall in Hix. auto. }
  split; [|by eapply drop_idle].
  intros ->. by apply Hnc, (drop_done s e d).
Qed.

(** X4, witness: a table without [station_name]. *)
Lemma unfit_table_is_left_alone_witness :
  (run (migrate_column Cs125Current calm) sparse).1 ≠ inr true ∧
  disk (run (migrate_column Cs125Current calm) sparse).2 = sparse.
Proof.
  apply (unfit_table_is_left_alone Cs125Current calm sparse
           (Table [ Column "id" "INTEGER" false NoDefault true;
                    Column "timestamp" "INTEGER" true NoDefault false;
                    Column "cs125_current" "REAL" false NoDefault false ]
                  [ [VInt 1; VInt 1717243200; VReal 4] ])
           "station_name").
  - reflexivity.
  - apply (bool_decide_unpack _). vm_compute. exact I.
  - left. split; apply (bool_decide_unpack _); vm_compute; exact I.
  - apply surjective_pairing.
Defined.

(** X6.  The table a successful run leaves in place of [ewcs_data] is well
    formed, whatever the table it found: distinct column names, one primary
    key, rows as long as the schema, no NULL under NOT NULL, distinct
    integer keys. *)
Theorem migrated_table_is_well_formed s e d w :
  run (migrate_column s e) d = (inr true, w) →
  removed s ∈ names (table_info "ewcs_data" d) →
  ∃ t', tables (disk w) !! "ewcs_data" = Some t' ∧ cols t' = target s ∧ wf_table t'.
Proof.
  intros Hrun Hin.
  pose proof (drop_done s e d w Hrun Hin) as Hc.
  destruct (drop_committed s e d _ w Hrun Hc) as (Hswap & _).
  by eapply swap_well_formed.
Qed.

(** X6, witness: the legacy table, less two columns. *)
Lemma migrated_table_is_well_formed_witness :
  ∃ t', tables (disk (run (migrate_column PowerSaveMode calm) legacy).2) !! "ewcs_data"
          = Some t' ∧ wf_table t'.
Proof.
  destruct (migrated_table_is_well_formed PowerSaveMode calm legacy
              (run (migrate_column PowerSaveMode calm) legacy).2)
    as (t' & H1 & _ & H3).
  - vm_compute. reflexivity.
  - apply (bool_decide_unpack _). vm_compute. exact I.
  - exists t'. split; assumption.
Defined.


(** Statements 3 to 7 on a well-formed table whose columns are those of the
    script and the removed one: the new table has the columns of the
    script, is well formed, and its rows are the old ones less one cell. *)
Lemma swap_keeps_rows clk s d d' t :
  swap clk s d = inr d' →
  tables d !! "ewcs_data" = Some t →
  wf_table t →
  without (removed s) (cols t) = target s →
  ∃ t',
    tables d' !! "ewcs_data" = Some t' ∧ cols t' = target s ∧ wf_table t' ∧
    Forall2 (λ r r', ∀ n, n ≠ removed s → field (cols t') r' n = field (cols t) r n)
      (rows t) (rows t').
Proof.
  intros Hswap Ht Hwf Hcols.
  destruct (swap_well_formed _ _ _ _ Hswap) as (t' & Ht' & Hc' & Hwf').
  apply swap_inr in Hswap as (t0 & ix & rs & Ht0 & _ & Hix & Hrs & Htabs).
  rewrite Ht in Ht0. injection Ht0 as <-.
  rewrite Htabs, lookup_insert_eq in Ht'. injection Ht' as <-.
  exists (Table (target s) rs). rewrite Htabs, lookup_insert_eq.
  do 3 (split; [done|]).
  apply store_rows_inr in Hrs as (kept & -> & Hkept). simpl.
  rewrite <- list_fmap_compose, Forall2_fmap_l in Hkept.
  eapply (Forall2_under (λ r, r ∈ rows t)); [|exact Hkept|].
  - apply Forall_forall. auto.
  - intros r r' Hr Hst. simpl in Hst. by eapply copy_keeps_fields.
Qed.

Lemma Forall2_chain {A B C} (R : A → B → Prop) (Q : B → C → Prop)
    (T : A → C → Prop) l k m :
  (∀ x y z, R x y → Q y z → T x z) →
  Forall2 R l k → Forall2 Q k m → Forall2 T l m.
Proof.
  intros HT HR. revert m.
  induction HR; intros m HQ; inversion_clear HQ; constructor; eauto.
Qed.

(** X7.  A run that finds the column and returns [True] has done exactly
    this, in this order: connect, BEGIN, PRAGMA, the two lines about the
    columns found, CREATE TABLE, INSERT ... SELECT, the line with the number
    of rows of the table, DROP TABLE, RENAME, CREATE INDEX, commit, the
    success line, PRAGMA, the line with the column names of the script,
    close. *)
Theorem rewrite_is_reported_in_full s e d t w :
  run (migrate_column s e) d = (inr true, w) →
  tables d !! "ewcs_data" = Some t →
  removed s ∈ names (cols t) →
  trace w = done_trace s (names (cols t)) (length (rows t)).
Proof.
  intros Hrun Ht Hin.
  assert (table_info "ewcs_data" d = cols t) as Hinfo.
  { unfold table_info. by rewrite Ht. }
  rewrite <- Hinfo in Hin.
  destruct (drop_trace s e d w Hrun Hin) as (d1 & d2 & n & Hcr & Hins & ->).
  pose proof (drop_done s e d w Hrun Hin) as Hc.
  destruct (drop_committed s e d _ w Hrun Hc) as (Hswap & _).
  destruct (swap_well_formed _ _ _ _ Hswap) as (t' & Ht' & Hc' & _).
  apply create_table_inr in Hcr as (_ & _ & ->).
  apply insert_select_inr in Hins as (tgt & src & ix & keep & rs & _ & Hsrc & _ & Hw & _ & _ & ->).
  simpl in Hsrc. rewrite lookup_insert_ne, Ht in Hsrc by done. injection Hsrc as <-.
  simpl in Hw. injection Hw as <-. rewrite filter_all by done.
  unfold done_trace, table_info. by rewrite Ht, Ht', Hc'.
Qed.

(** X7, witness: the two rows of the legacy table. *)
Lemma rewrite_is_reported_in_full_witness :
  trace (run (migrate_column Cs125Current calm) legacy).2
  = done_trace Cs125Current (names legacy_columns) 2.
Proof.
  apply (rewrite_is_reported_in_full Cs125Current calm legacy
           (Table legacy_columns [legacy_row 1 1717243200; legacy_row 2 1717243260])).
  - vm_compute. reflexivity.
  - reflexivity.
  - apply (bool_decide_unpack _). vm_compute. exact I.
Defined.

(** X9.  The two column-drop scripts in turn, [cs125_current] first: when
    both runs return [True] on a well-formed table with the columns of the
    first script and [cs125_current], the table is left with the columns of
    the second script, which are the first ones less [cs125_current] and
    [power_save_mode], and with as many rows, each holding under every
    other name what it held. *)
Theorem both_columns_are_dropped_in_turn e1 e2 d t w1 w2 :
  tables d !! "ewcs_data" = Some t →
  wf_table t →
  "cs125_current" ∈ names (cols t) →
  without "cs125_current" (cols t) = target Cs125Current →
  run (migrate_cs125_current e1) d = (inr true, w1) →
  run (migrate_power_save_mode e2) (disk w1) = (inr true, w2) →
  ∃ t2,
    tables (disk w2) !! "ewcs_data" = Some t2 ∧
    cols t2 = without "power_save_mode" (without "cs125_current" (cols t)) ∧
    Forall2 (λ r r2, ∀ n, n ≠ "cs125_current" → n ≠ "power_save_mode" →
                          field (cols t2) r2 n = field (cols t) r n)
      (rows t) (rows t2).
Proof.
  intros Ht Hwf Hin Hcols Hrun1 Hrun2.
  assert (removed Cs125Current ∈ names (table_info "ewcs_data" d)) as Hin1.
  { unfold table_info. by rewrite Ht. }
  pose proof (drop_done _ e1 d w1 Hrun1 Hin1) as Hc1.
  destruct (drop_committed _ e1 d _ w1 Hrun1 Hc1) as (Hswap1 & _).
  destruct (swap_keeps_rows _ _ _ _ t Hswap1 Ht Hwf Hcols)
    as (t1 & Ht1 & Hcols1 & Hwf1 & Hrows1).
  assert (removed PowerSaveMode ∈ names (table_info "ewcs_data" (disk w1))) as Hin2.
  { unfold table_info. rewrite Ht1, Hcols1.
    apply (bool_decide_unpack _). by vm_compute. }
  pose proof (drop_done _ e2 _ w2 Hrun2 Hin2) as Hc2.
  destruct (drop_committed _ e2 _ _ w2 Hrun2 Hc2) as (Hswap2 & _).
  assert (without (removed PowerSaveMode) (cols t1) = target PowerSaveMode) as Hcols2.
  { rewrite Hcols1. by vm_compute. }
  destruct (swap_keeps_rows _ _ _ _ t1 Hswap2 Ht1 Hwf1 Hcols2)
    as (t2 & Ht2 & Hc2' & _ & Hrows2).
  exists t2. split; [done|]. split.
  { rewrite Hc2', <- Hcols2, Hcols1. by rewrite Hcols. }
  eapply Forall2_chain; [|exact Hrows1|exact Hrows2].
  intros r r1 r2 H1 H2 n Hn1 Hn2. simpl in *.
  by rewrite H2, H1.
Qed.

(** X9, witness: the legacy table. *)
Lemma both_columns_are_dropped_in_turn_witness :
  ∃ t2,
    tables (disk (run (migrate_power_save_mode calm)
                    (disk (run (migrate_cs125_current calm) legacy).2)).2) !! "ewcs_data"
      = Some t2 ∧
    cols t2 = without "power_save_mode" (without "cs125_current" legacy_columns).
Proof.
  destruct (both_columns_are_dropped_in_turn calm calm legacy
              (Table legacy_columns [legacy_row 1 1717243200; legacy_row 2 1717243260])
              (run (migrate_cs125_current calm) legacy).2
              (run (migrate_power_save_mode calm)
                 (disk (run (migrate_cs125_current calm) legacy).2)).2)
    as (t2 & H1 & H2 & _).
  - reflexivity.
  - apply (bool_decide_unpack _). vm_compute. exact I.
  - apply (bool_decide_unpack _). vm_compute. exact I.
  - vm_compute. reflexivity.
  - vm_compute. reflexivity.
  - vm_compute. reflexivity.
  - exists t2. split; assumption.
Defined.

(** ** Runs of the image script *)

Section images_runs.
Variables (e : env) (d : db).

(** A run that opened the connection ends by closing it, with no
    transaction open and nothing pending. *)
Lemma images_closes out w :
  run (migrate_images e) d = (out, w) →
  opens e = true →
  last (trace w) = Some Close ∧ in_tx w = false ∧ view w = disk w.
Proof.
  explore; intros [= <- <-]; cbn; try done.
Qed.

Lemma images_outcome out w :
  run (migrate_images e) d = (out, w) →
  out = inr true ∧ (¬ caught w) ∧ opens e = true
  ∨ out = inr false ∧ caught w ∧ opens e = true
  ∨ out = inl (UnboundLocalError "conn") ∧ caught w ∧ opens e = false.
Proof.
  unfold caught.
  explore; intros [= <- <-]; cbn.
  all: first
    [ left; split; [done|]; split; [|done]; intros [x H]; nowhere H
    | right; left; split; [done|]; split; [|done]; eexists; member
    | right; right; split; [done|]; split; [|done]; eexists; member ].
Qed.

Lemma images_frame tr :
  migrate_images e (World d d false false 0 tr) =
  let r := run (migrate_images e) d in
  (r.1, World (disk r.2) (view r.2) (in_tx r.2) (conn r.2) (calls r.2) (tr ++ trace r.2)).
Proof.
  explore; rewrite <- ?app_assoc; reflexivity.
Qed.

(** When no row matches, a run changes nothing and sends nothing but
    BEGIN and the two counts. *)
Lemma images_nothing out w :
  (∀ n, select_count "ewcs_images" fits d = inr n → n = 0) →
  run (migrate_images e) d = (out, w) →
  disk w = d ∧
  (∀ st, Execute st ∈ trace w →
         st = Begin ∨ st = SelectCount "ewcs_images" fits ∨ st = SelectCount "oasc_images" None) ∧
  (quiet e → select_count "ewcs_images" fits d = inr 0 →
   ∀ m, select_count "oasc_images" None d = inr m →
        out = inr true ∧ trace w = idle_trace m).
Proof.
  intros Hzero. unfold quiet, idle_trace.
  explore; intros [= <- <-]; cbn.
  all: try (exfalso;
            match goal with
            | Hs : select_count "ewcs_images" _ _ = inr ?n |- _ =>
                specialize (Hzero n Hs); lia
            end).
  all: (split; [done|]); split;
    [ intros st H; statements H
    | intros [Ho Hf]; try done;
      repeat match goal with H : fault e _ = true |- _ => rewrite Hf in H end;
      try congruence ].
  all: intros [= ->] m [= ->]; done.
Qed.

(** The trace of a run that got past its commit and returned [True]. *)
Lemma images_report w :
  run (migrate_images e) d = (inr true, w) →
  completed w →
  ∃ found before d1 n1 n2 left now,
    select_count "ewcs_images" fits d = inr found ∧
    select_count "oasc_images" None d = inr before ∧
    insert_select (clock e) "oasc_images" moved "ewcs_images" moved fits d = inr (d1, n1) ∧
    delete_where "ewcs_images" (LikeFits "filename") d1 = inr (disk w, n2) ∧
    select_count "ewcs_images" None (disk w) = inr left ∧
    select_count "oasc_images" None (disk w) = inr now ∧
    trace w = move_trace found before n1 n2 left now.
Proof.
  unfold completed, move_trace.
  explore; intros [= <-]; cbn; intros Hc; try (exfalso; nowhere Hc).
  eexists _, _, _, _, _, _, _. by repeat split.
Qed.

Lemma images_closed :
  opens e = false →
  run (migrate_images e) d =
    (inl (UnboundLocalError "conn"),
     World d d false false 0 [Connect "data/ewcs.db"; Printed (LineError CannotOpen)]).
Proof. intros Ho. by explore. Qed.
End images_runs.


(** ** The image script: further properties *)

Section counting.
Implicit Types (d : db) (src tgt : table).

Lemma count_fits_inr d src n :
  tables d !! "ewcs_images" = Some src →
  select_count "ewcs_images" fits d = inr n →
  is_Some (col_index "filename" (cols src)) ∧ n = length (fits_rows src).
Proof.
  intros Hsrc (t & keep & Ht & Hw & ->)%select_count_inr.
  rewrite Hsrc in Ht. injection Ht as <-.
  apply where_fits in Hw as (i & Hi & ->).
  unfold fits_rows. rewrite Hi. eauto.
Qed.

Lemma count_fits d src :
  tables d !! "ewcs_images" = Some src →
  "filename" ∈ names (cols src) →
  select_count "ewcs_images" fits d = inr (length (fits_rows src)).
Proof.
  intros Hsrc [i Hi]%col_index_is_Some.
  unfold select_count, fits_rows, where_test, fits. by rewrite Hsrc, Hi.
Qed.

Lemma count_all name d t :
  tables d !! name = Some t →
  select_count name None d = inr (length (rows t)).
Proof.
  intros Ht. unfold select_count, where_test. rewrite Ht.
  by rewrite filter_all.
Qed.

Lemma fits_rows_of_others src : fits_rows (Table (cols src) (other_rows src)) = [].
Proof.
  unfold fits_rows, other_rows. simpl.
  destruct (col_index "filename" (cols src)) as [i|]; [|done].
  induction (rows src) as [|r rs IH]; [done|].
  rewrite (filter_cons (λ r, like_fits (cell r i) ≠ true)).
  destruct (decide (like_fits (cell r i) ≠ true)) as [Hr|Hr]; [|done].
  rewrite filter_cons. by destruct (decide (like_fits (cell r i) = true)).
Qed.

Lemma fits_and_others src :
  length (rows src) = length (other_rows src) + length (fits_rows src).
Proof.
  unfold fits_rows, other_rows.
  destruct (col_index "filename" (cols src)) as [i|]; [|simpl; lia].
  rewrite <- (filter_app_complement (λ r, like_fits (cell r i) = true) (rows src)) at 1.
  rewrite length_app. lia.
Qed.
End counting.

(** A run that got past its commit, or returned [True], found both
    tables, and a column [filename] in [ewcs_images]. *)
Lemma images_found e d out w :
  run (migrate_images e) d = (out, w) →
  completed w ∨ out = inr true →
  ∃ src tgt,
    tables d !! "ewcs_images" = Some src ∧
    tables d !! "oasc_images" = Some tgt ∧
    "filename" ∈ names (cols src).
Proof.
  intros Hrun Hcase.
  destruct (images_moved e d out w Hrun Hcase) as (src & tgt & kept & Hsrc & Htgt & _).
  exists src, tgt. do 2 (split; [done|]).
  assert (is_Some (col_index "filename" (cols src))) as [i Hi].
  { destruct (decide (completed w)) as [Hc|Hnc].
    - destruct (images_completed e d out w Hrun Hc) as (d1 & n1 & n2 & Hins & _).
      apply insert_select_inr in Hins as (? & src' & ? & keep & ? & _ & Hsrc' & _ & Hw & _).
      rewrite Hsrc in Hsrc'. injection Hsrc' as <-.
      apply where_fits in Hw as (i & Hi & _). eauto.
    - destruct Hcase as [ | -> ]; [done|].
      destruct (images_done e d w Hrun) as [|(_ & Hcount & _)]; [done|].
      by destruct (count_fits_inr _ _ _ Hsrc Hcount). }
  destruct (decide ("filename" ∈ names (cols src))) as [|Hno]; [done|].
  apply col_index_None in Hno. congruence.
Qed.

(** X11.  When no row of [ewcs_images] has a filename matching
    [LIKE '%.fits'], a run leaves the database file as it was and sends
    nothing but BEGIN and the two counts; when no call fails for an outside
    reason and both tables are there, it returns [True] having printed a
    count of 0, the size of [oasc_images] and the nothing-to-migrate
    line. *)
Theorem no_fits_rows_nothing_to_move e d src out w :
  tables d !! "ewcs_images" = Some src →
  fits_rows src = [] →
  run (migrate_images e) d = (out, w) →
  disk w = d ∧
  (∀ st, Execute st ∈ trace w →
         st = Begin ∨ st = SelectCount "ewcs_images" fits ∨ st = SelectCount "oasc_images" None) ∧
  (quiet e → "filename" ∈ names (cols src) →
   ∀ tgt, tables d !! "oasc_images" = Some tgt →
          out = inr true ∧ trace w = idle_trace (length (rows tgt))).
Proof.
  intros Hsrc Hnone Hrun.
  assert (∀ n, select_count "ewcs_images" fits d = inr n → n = 0) as Hzero.
  { intros n Hn. destruct (count_fits_inr _ _ _ Hsrc Hn) as [_ ->]. by rewrite Hnone. }
  destruct (images_nothing e d out w Hzero Hrun) as (Hd & Hst & Hq).
  do 2 (split; [done|]). intros Hquiet Hfile tgt Htgt.
  apply Hq; [done| |by apply count_all].
  rewrite (count_fits _ _ Hsrc Hfile). by rewrite Hnone.
Qed.

(** X11, witness: one image that is not a FITS file. *)
Lemma no_fits_rows_nothing_to_move_witness :
  disk (run (migrate_images calm)
          (Db {[ "ewcs_images" :=
                   Table image_columns
                     [ [VInt 1; VInt 10; VText "spinel_0001.jpg"; VNull] ];
                 "oasc_images" := Table image_columns [] ]} ∅)).2
  = Db {[ "ewcs_images" :=
            Table image_columns
              [ [VInt 1; VInt 10; VText "spinel_0001.jpg"; VNull] ];
          "oasc_images" := Table image_columns [] ]} ∅.
Proof.
  refine (proj1 (no_fits_rows_nothing_to_move calm _
                   (Table image_columns [ [VInt 1; VInt 10; VText "spinel_0001.jpg"; VNull] ])
                   _ _ _ _ (surjective_pairing _))).
  - reflexivity.
  - vm_compute. reflexivity.
Defined.

(** X12.  After a run of the image script that returned [True], no row of
    [ewcs_images] matches any more, so a second run leaves the file as the
    first left it, and returns [True] when no call fails for an outside
    reason. *)
Theorem second_image_run_moves_nothing e1 e2 d w1 out2 w2 :
  run (migrate_images e1) d = (inr true, w1) →
  run (migrate_images e2) (disk w1) = (out2, w2) →
  (∃ src', tables (disk w1) !! "ewcs_images" = Some src' ∧ fits_rows src' = []) ∧
  disk w2 = disk w1 ∧
  (quiet e2 → out2 = inr true).
Proof.
  intros Hrun1 Hrun2.
  destruct (images_found e1 d _ w1 Hrun1 (or_intror eq_refl))
    as (src0 & tgt0 & Hsrc0 & _ & Hfile).
  destruct (images_moved e1 d _ w1 Hrun1 (or_intror eq_refl))
    as (src & tgt & kept & Hsrc & Htgt & Htabs & _).
  assert (src0 = src) as -> by congruence.
  assert (tables (disk w1) !! "ewcs_images" = Some (Table (cols src) (other_rows src)))
    as Hsrc1 by (by rewrite Htabs, lookup_insert_eq).
  assert (tables (disk w1) !! "oasc_images" = Some (Table (cols tgt) (rows tgt ++ kept)))
    as Htgt1 by (by rewrite Htabs, lookup_insert_ne, lookup_insert_eq).
  assert (∀ n, select_count "ewcs_images" fits (disk w1) = inr n → n = 0) as Hzero.
  { intros n Hn. destruct (count_fits_inr _ _ _ Hsrc1 Hn) as [_ ->].
    by rewrite fits_rows_of_others. }
  destruct (images_nothing e2 _ out2 w2 Hzero Hrun2) as (Hd & _ & Hq).
  split; [eauto using fits_rows_of_others|]. split; [done|].
  intros Hquiet.
  destruct (Hq Hquiet) with (m := length (rows tgt ++ kept)) as [Hout _]; [| |done].
  - rewrite (count_fits _ _ Hsrc1 Hfile). by rewrite fits_rows_of_others.
  - apply (count_all _ _ _ Htgt1).
Qed.

(** X12, witness: two runs on the gallery. *)
Lemma second_image_run_moves_nothing_witness :
  disk (run (migrate_images calm) (disk (run (migrate_images calm) gallery).2)).2
  = disk (run (migrate_images calm) gallery).2.
Proof.
  refine (proj1 (proj2 (second_image_run_moves_nothing calm calm gallery _ _ _ _
                          (surjective_pairing _)))).
  vm_compute. reflexivity.
Defined.

(** X13.  The image script returns [True] only when [ewcs_images] has a
    column [filename]: on a table [ewcs_images] none of whose columns bears
    that name, case apart, the run does not return [True] and the database
    file is left as it was. *)
Theorem image_run_needs_filename_column e d src out w :
  tables d !! "ewcs_images" = Some src →
  "filename" ∉ lower <$> names (cols src) →
  run (migrate_images e) d = (out, w) →
  out ≠ inr true ∧ disk w = d.
Proof.
  intros Hsrc Hno Hrun.
  assert (¬ (completed w ∨ out = inr true)) as Hnot.
  { intros Hcase.
    destruct (images_found e d out w Hrun Hcase) as (src' & tgt & Hsrc' & _ & Hfile).
    assert (src' = src) as -> by congruence.
    by apply (not_named "filename" (names (cols src))). }
  split; [tauto|]. apply (images_idle e d out w Hrun). tauto.
Qed.

(** X13, witness: a table that names its files in a column [path]. *)
Lemma image_run_needs_filename_column_witness :
  (run (migrate_images calm) pathless).1 ≠ inr true ∧
  disk (run (migrate_images calm) pathless).2 = pathless.
Proof.
  apply (image_run_needs_filename_column calm pathless
           (Table [ Column "id" "INTEGER" false NoDefault true;
                    Column "timestamp" "INTEGER" true NoDefault false;
                    Column "path" "TEXT" true NoDefault false ]
                  [ [VInt 1; VInt 10; VText "oasc_0001.fits"] ])).
  - reflexivity.
  - apply (bool_decide_unpack _). vm_compute. exact I.
  - apply surjective_pairing.
Defined.

(** X14.  A run of the image script that returns [True] having found [n]
    matching rows, [n] not 0, has done exactly this, in this order: connect,
    BEGIN, the two counts and their lines, INSERT ... SELECT and DELETE with
    the lines reporting [n] rows migrated and [n] rows removed, commit, the
    success line, the two final counts, and the final state: [ewcs_images]
    with [n] rows fewer, [oasc_images] with [n] rows more, then close. *)
Theorem move_is_reported_in_full e d src tgt w :
  run (migrate_images e) d = (inr true, w) →
  tables d !! "ewcs_images" = Some src →
  tables d !! "oasc_images" = Some tgt →
  fits_rows src ≠ [] →
  trace w =
    move_trace (length (fits_rows src)) (length (rows tgt))
      (length (fits_rows src)) (length (fits_rows src))
      (length (rows src) - length (fits_rows src))
      (length (rows tgt) + length (fits_rows src)).
Proof.
  intros Hrun Hsrc Htgt Hsome.
  assert (completed w) as Hc.
  { destruct (images_done e d w Hrun) as [|(_ & Hcount & _)]; [done|].
    destruct (count_fits_inr _ _ _ Hsrc Hcount) as [_ Hlen].
    symmetry in Hlen. by apply length_zero_iff_nil in Hlen. }
  destruct (images_report e d w Hrun Hc)
    as (found & before & d1 & n1 & n2 & left & now
        & Hfound & Hbefore & Hins & Hdel & Hleft & Hnow & ->).
  destruct (moved_tables _ _ _ _ _ _ Hins Hdel)
    as (src0 & tgt0 & ix & kept & Hsrc0 & Htgt0 & _ & Hkept & Htabs & _ & -> & ->).
  assert (src0 = src) as -> by congruence.
  assert (tgt0 = tgt) as -> by congruence.
  destruct (count_fits_inr _ _ _ Hsrc Hfound) as [_ ->].
  rewrite (count_all _ _ _ Htgt) in Hbefore. injection Hbefore as <-.
  rewrite (count_all _ _ (Table (cols src) (other_rows src))) in Hleft
    by (by rewrite Htabs, lookup_insert_eq).
  rewrite (count_all _ _ (Table (cols tgt) (rows tgt ++ kept))) in Hnow
    by (by rewrite Htabs, lookup_insert_ne, lookup_insert_eq).
  injection Hleft as <-. injection Hnow as <-. simpl.
  apply Forall2_length in Hkept. rewrite !length_fmap in Hkept.
  pose proof (fits_and_others src) as Hsplit.
  rewrite length_app. f_equal; lia.
Qed.

(** X14, witness: two of three images move. *)
Lemma move_is_reported_in_full_witness :
  trace (run (migrate_images calm) gallery).2 = move_trace 2 1 2 2 1 3.
Proof.
  apply (move_is_reported_in_full calm gallery
           (Table image_columns
              [ [VInt 1; VInt 10; VText "spinel_0001.jpg"; VText "2024-06-01 12:00:00"];
                [VInt 2; VInt 11; VText "oasc_0001.fits"; VText "2024-06-01 12:01:00"];
                [VInt 3; VInt 12; VText "oasc_0002.FITS"; VText "2024-06-01 12:02:00"] ])
           (Table image_columns
              [ [VInt 5; VInt 9; VText "oasc_0000.fits"; VText "2024-06-01 11:59:00"] ])).
  - vm_compute. reflexivity.
  - reflexivity.
  - reflexivity.
  - vm_compute. discriminate.
Defined.

(** X8.  Every run of one of the three functions that opened the database
    file ends by closing the connection, whether it succeeded or failed,
    with no transaction left open and nothing uncommitted pending. *)
Theorem connection_is_always_closed e d :
  opens e = true →
  (∀ s, last (trace (run (migrate_column s e) d).2) = Some Close ∧
        in_tx (run (migrate_column s e) d).2 = false ∧
        view (run (migrate_column s e) d).2 = disk (run (migrate_column s e) d).2) ∧
  last (trace (run (migrate_images e) d).2) = Some Close ∧
  in_tx (run (migrate_images e) d).2 = false ∧
  view (run (migrate_images e) d).2 = disk (run (migrate_images e) d).2.
Proof.
  intros Ho. split.
  - intros s. by eapply drop_closes; [apply surjective_pairing|].
  - by eapply images_closes; [apply surjective_pairing|].
Qed.

(** X8, witness: the INSERT fails; the connection is closed after the rollback. *)
Lemma connection_is_always_closed_witness :
  last (trace (run (migrate_images (failing 3)) gallery).2) = Some Close.
Proof.
  exact (proj1 (proj2 (connection_is_always_closed (failing 3) gallery eq_refl))).
Defined.


(** ** Rows the new table refuses *)

(** X19.  The new table declares [timestamp] NOT NULL.  When a row of
    [ewcs_data] holds NULL there, a run that found the column to remove
    does not return [True], and the database file is left as it was. *)
Theorem null_timestamp_blocks_the_rewrite s e d t r out w :
  tables d !! "ewcs_data" = Some t →
  removed s ∈ names (cols t) →
  r ∈ rows t →
  field (cols t) r "timestamp" = Some VNull →
  run (migrate_column s e) d = (out, w) →
  out ≠ inr true ∧ disk w = d.
Proof.
  intros Ht Hin Hr Hnull Hrun.
  assert (removed s ∈ names (table_info "ewcs_data" d)) as Hin'.
  { unfold table_info. by rewrite Ht. }
  assert (¬ committed s w) as Hnc.
  { intros Hc. destruct (drop_committed s e d out w Hrun Hc) as (Hswap & _).
    apply swap_inr in Hswap as (t0 & ix & rs & Ht0 & _ & Hix & Hrs & _).
    rewrite Ht in Ht0. injection Ht0 as <-.
    destruct (store_rows_keeps _ _ _ _ Hrs) as [Hall _].
    { apply Forall_fmap, Forall_forall. intros r0 _. simpl.
      unfold build_row. by rewrite length_fmap. }
    { constructor. }
    { apply keyed_empty. }
    apply store_rows_inr in Hrs as (kept & -> & Hkept). simpl in Hall.
    rewrite <- list_fmap_compose, Forall2_fmap_l in Hkept.
    apply list_elem_of_lookup in Hr as [i Hi].
    destruct (Forall2_lookup_l _ _ _ _ _ Hkept Hi) as (r' & Hi' & Hst). simpl in Hst.
    rewrite Forall_forall in Hall.
    destruct (Hall r') as [Hlen Hnn]; [by eapply list_elem_of_lookup_2|].
    destruct (target_key s) as (_ & Hrow & _).
    assert (col_index "timestamp" (target s) = Some 1) as Hts by (by destruct s).
    assert (field (target s) r' "timestamp" = Some VNull) as Hf.
    { rewrite (stored_field _ _ _ "timestamp" Hst) by (left; congruence).
      rewrite <- Hnull. apply copied_field; [done| |].
      - destruct s; apply (bool_decide_unpack _); by vm_compute.
      - destruct s; apply (bool_decide_unpack _); by vm_compute. }
    unfold field in Hf. rewrite Hts in Hf. simpl in Hf. injection Hf as Hcell.
    destruct (lookup_lt_is_Some_2 r' 1) as [v Hv].
    { rewrite Hlen. destruct s; simpl; lia. }
    unfold cell in Hcell. rewrite Hv in Hcell. simpl in Hcell. subst v.
    rewrite null_violation_None in Hnn.
    apply (Hnn 1 (Column "timestamp" "INTEGER" true NoDefault false) VNull);
      [by destruct s|done|done]. }
  split; [|by eapply drop_idle].
  intros ->. by apply Hnc, (drop_done s e d).
Qed.

(** X19, witness: the legacy table as it would be had it been created
    without NOT NULL on [timestamp], holding a row without one. *)
Lemma null_timestamp_blocks_the_rewrite_witness :
  (run (migrate_column Cs125Current calm)
     (Db {[ "ewcs_data" :=
              Table (<[1 := plain "timestamp" "INTEGER"]> legacy_columns)
                    [ <[1 := VNull]> (legacy_row 1 0) ] ]} ∅)).1
  ≠ inr true.
Proof.
  refine (proj1 (null_timestamp_blocks_the_rewrite Cs125Current calm _
                   (Table (<[1 := plain "timestamp" "INTEGER"]> legacy_columns)
                          [ <[1 := VNull]> (legacy_row 1 0) ])
                   (<[1 := VNull]> (legacy_row 1 0)) _ _ _ _ _ _ (surjective_pairing _))).
  - reflexivity.
  - apply (bool_decide_unpack _). vm_compute. exact I.
  - apply list_elem_of_here.
  - vm_compute. reflexivity.
Defined.


(** ** The image tables stay well formed *)

Lemma keys_filter k (P : row → Prop) `{∀ r, Decision (P r)} (rs : list row) :
  NoDup (keys k rs) → NoDup (keys k (filter P rs)).
Proof.
  induction rs as [|r rs IH]; [done|].
  change (r :: rs) with ([r] ++ rs). rewrite keys_app.
  intros (H1 & H2 & H3)%NoDup_app. simpl. rewrite filter_cons.
  destruct (decide (P r)); [|auto].
  change (r :: filter P rs) with ([r] ++ filter P rs). rewrite keys_app.
  apply NoDup_app. split; [done|]. split; [|auto].
  intros z Hz Hz'. apply (H2 z Hz). unfold keys in *.
  apply list_elem_of_omap in Hz' as (r' & [_ Hr']%list_elem_of_filter & Hk).
  apply list_elem_of_omap. eauto.
Qed.

(** Deleting rows keeps a table well formed. *)
Lemma wf_filter (P : row → Prop) `{∀ r, Decision (P r)} t :
  wf_table t → wf_table (Table (cols t) (filter P (rows t))).
Proof.
  intros (Hnd & Hpk & Hrows & Hk). repeat split; try done; simpl.
  - rewrite Forall_forall in *. intros r [_ Hr]%list_elem_of_filter. auto.
  - unfold keyed in *. simpl. destruct (rowid_col (cols t)) as [k|]; [|done].
    destruct Hk as [Hint Hkeys]. split; [|by apply keys_filter].
    rewrite Forall_forall in *. intros r [_ Hr]%list_elem_of_filter. auto.
Qed.

(** X20.  Whatever a run of the image script does, two well-formed tables
    are left well formed, with their columns: rows as long as the schema, no
    NULL under NOT NULL, and integer ids all distinct, those of the rows
    moved into [oasc_images] included. *)
Theorem image_tables_stay_well_formed e d src tgt out w :
  tables d !! "ewcs_images" = Some src →
  tables d !! "oasc_images" = Some tgt →
  wf_table src → wf_table tgt →
  run (migrate_images e) d = (out, w) →
  ∃ src' tgt',
    tables (disk w) !! "ewcs_images" = Some src' ∧
    tables (disk w) !! "oasc_images" = Some tgt' ∧
    cols src' = cols src ∧ cols tgt' = cols tgt ∧
    wf_table src' ∧ wf_table tgt'.
Proof.
  intros Hsrc Htgt Hwfs Hwft Hrun.
  destruct (decide (completed w)) as [Hc|Hnc].
  - destruct (images_completed e d out w Hrun Hc) as (d1 & n1 & n2 & Hins & Hdel & _).
    apply insert_select_inr in Hins
      as (tgt0 & src0 & ix & keep & rs & Htgt0 & Hsrc0 & _ & _ & Hrs & -> & _).
    apply delete_where_inr in Hdel as (src1 & keep' & Hsrc1 & _ & Hd & _).
    simpl in Hsrc1. rewrite lookup_insert_ne in Hsrc1 by done.
    assert (tgt0 = tgt) as -> by congruence.
    assert (src0 = src) as -> by congruence.
    assert (src1 = src) as -> by congruence.
    rewrite Hd. simpl.
    exists (Table (cols src) (filter (λ r, keep' r ≠ true) (rows src))),
           (Table (cols tgt) rs).
    split; [by rewrite lookup_insert_eq|].
    split; [by rewrite lookup_insert_ne, lookup_insert_eq|].
    do 2 (split; [done|]). split; [by apply wf_filter|].
    destruct Hwft as (Hnd & Hpk & Hrows & Hk).
    match type of Hrs with
    | store_rows _ _ ?new = _ =>
        assert (Forall (λ r, length r = length (cols tgt)) new) as Hlen
    end.
    { apply Forall_fmap, Forall_forall. intros r _. simpl.
      unfold build_row. by rewrite length_fmap. }
    destruct (store_rows_keeps _ _ _ _ Hrs Hlen Hrows) as [Hall Hkeyed];
      [by destruct tgt|].
    by repeat split.
  - rewrite (images_idle e d out w Hrun Hnc). by exists src, tgt.
Qed.

(** X20, witness: the gallery. *)
Lemma image_tables_stay_well_formed_witness :
  ∃ tgt', tables (disk (run (migrate_images calm) gallery).2) !! "oasc_images" = Some tgt' ∧
          wf_table tgt'.
Proof.
  destruct (image_tables_stay_well_formed calm gallery
              (Table image_columns
                 [ [VInt 1; VInt 10; VText "spinel_0001.jpg"; VText "2024-06-01 12:00:00"];
                   [VInt 2; VInt 11; VText "oasc_0001.fits"; VText "2024-06-01 12:01:00"];
                   [VInt 3; VInt 12; VText "oasc_0002.FITS"; VText "2024-06-01 12:02:00"] ])
              (Table image_columns
                 [ [VInt 5; VInt 9; VText "oasc_0000.fits"; VText "2024-06-01 11:59:00"] ])
              (run (migrate_images calm) gallery).1
              (run (migrate_images calm) gallery).2 eq_refl eq_refl)
    as (src' & tgt' & _ & H2 & _ & _ & _ & H6).
  - apply (bool_decide_unpack _). vm_compute. exact I.
  - apply (bool_decide_unpack _). vm_compute. exact I.
  - apply surjective_pairing.
  - exists tgt'. split; assumption.
Defined.


(** ** The [__main__] blocks: further properties *)

Lemma lower_ascii_y a : lower_ascii a = "y"%char → a = "y"%char ∨ a = "Y"%char.
Proof.
  destruct a as [[] [] [] [] [] [] [] []]; vm_compute; intros H;
    first [discriminate H | by left | by right].
Qed.

(** The answers that [response.lower() == 'y'] accepts. *)
Lemma lower_y r : lower r = "y" ↔ r = "y" ∨ r = "Y".
Proof.
  split; [|by intros [->| ->]].
  destruct r as [|a [|b r]]; simpl; try done.
  intros [= Ha]. by destruct (lower_ascii_y a Ha) as [->| ->]; [left|right].
Qed.

(** [len(sys.argv) > 1 and sys.argv[1] == '-y'] *)
Lemma auto_confirm_true argv : auto_confirm argv = true ↔ argv !! 1 = Some "-y".
Proof.
  unfold auto_confirm. rewrite andb_true_iff, !bool_decide_eq_true. split.
  - by intros [_ ?].
  - intros H. split; [|done]. by eapply lookup_lt_Some.
Qed.

Section mains.
Variables (e : env) (d : db).

Lemma main_cs125_current_confirmed r :
  lower r = "y" →
  (run (main_cs125_current (Some r) e) d).1 = exit_of (run (migrate_cs125_current e) d).1 ∧
  disk (run (main_cs125_current (Some r) e) d).2 = disk (run (migrate_cs125_current e) d).2.
Proof.
  intros Hy. unfold main_cs125_current, migrate_cs125_current.
  unfold run at 1 3. unfold bind, print, input, ret, record, boot. cbn.
  rewrite (bool_decide_eq_true_2 _ Hy). cbn. rewrite drop_frame. cbn.
  destruct (run _ d) as [[x|[|]] w]; by split.
Qed.

Lemma main_cs125_current_unconfirmed stdin :
  (∀ r, stdin = Some r → lower r ≠ "y") →
  (run (main_cs125_current stdin e) d).1
    = match stdin with Some _ => inr 0%Z | None => inl EOFError end ∧
  disk (run (main_cs125_current stdin e) d).2 = d ∧
  chatter (trace (run (main_cs125_current stdin e) d).2).
Proof.
  intros Hn. unfold main_cs125_current, chatter.
  unfold run, bind, print, input, ret, record, boot.
  destruct stdin as [r|]; cbn.
  - rewrite bool_decide_eq_false_2 by auto. cbn. repeat split.
    intros ev H.
    repeat (apply elem_of_cons in H as [->|H]; [eauto|]). by apply elem_of_nil in H.
  - repeat split. intros ev H.
    repeat (apply elem_of_cons in H as [->|H]; [eauto|]). by apply elem_of_nil in H.
Qed.

Lemma main_images_confirmed r :
  lower r = "y" →
  (run (main_images (Some r) e) d).1 = exit_of (run (migrate_images e) d).1 ∧
  disk (run (main_images (Some r) e) d).2 = disk (run (migrate_images e) d).2.
Proof.
  intros Hy. unfold main_images.
  unfold run at 1 3. unfold bind, print, input, ret, record, boot. cbn.
  rewrite (bool_decide_eq_true_2 _ Hy). cbn. rewrite images_frame. cbn.
  destruct (run _ d) as [[x|[|]] w]; by split.
Qed.

Lemma main_images_unconfirmed stdin :
  (∀ r, stdin = Some r → lower r ≠ "y") →
  (run (main_images stdin e) d).1
    = match stdin with Some _ => inr 0%Z | None => inl EOFError end ∧
  disk (run (main_images stdin e) d).2 = d ∧
  chatter (trace (run (main_images stdin e) d).2).
Proof.
  intros Hn. unfold main_images, chatter.
  unfold run, bind, print, input, ret, record, boot.
  destruct stdin as [r|]; cbn.
  - rewrite bool_decide_eq_false_2 by auto. cbn. repeat split.
    intros ev H.
    repeat (apply elem_of_cons in H as [->|H]; [eauto|]). by apply elem_of_nil in H.
  - repeat split. intros ev H.
    repeat (apply elem_of_cons in H as [->|H]; [eauto|]). by apply elem_of_nil in H.
Qed.

Lemma main_power_save_mode_unconfirmed argv stdin :
  auto_confirm argv = false →
  (∀ r, stdin = Some r → lower r ≠ "y") →
  (run (main_power_save_mode argv stdin e) d).1
    = match stdin with Some _ => inr 0%Z | None => inl EOFError end ∧
  disk (run (main_power_save_mode argv stdin e) d).2 = d ∧
  chatter (trace (run (main_power_save_mode argv stdin e) d).2).
Proof.
  intros Ha Hn. unfold main_power_save_mode, chatter.
  unfold run, bind, print, input, ret, record, boot. rewrite Ha.
  destruct stdin as [r|]; cbn.
  - rewrite bool_decide_eq_true_2 by auto. cbn. repeat split.
    intros ev H.
    repeat (apply elem_of_cons in H as [->|H]; [eauto|]). by apply elem_of_nil in H.
  - repeat split. intros ev H.
    repeat (apply elem_of_cons in H as [->|H]; [eauto|]). by apply elem_of_nil in H.
Qed.

Lemma main_power_save_mode_going argv stdin :
  auto_confirm argv = true ∨ (∃ r, stdin = Some r ∧ lower r = "y") →
  (run (main_power_save_mode argv stdin e) d).1
    = exit_of (run (migrate_power_save_mode e) d).1.
Proof.
  unfold main_power_save_mode, migrate_power_save_mode.
  unfold run at 1. unfold bind, print, input, ret, record, boot.
  intros [Ha|(r & -> & Hr)].
  - rewrite Ha. cbn. rewrite drop_frame. cbn.
    by destruct (run _ d) as [[x|[|]] w].
  - destruct (auto_confirm argv); cbn.
    + rewrite drop_frame. cbn. by destruct (run _ d) as [[x|[|]] w].
    + rewrite bool_decide_eq_false_2 by (by intros []). cbn.
      rewrite drop_frame. cbn. by destruct (run _ d) as [[x|[|]] w].
Qed.
End mains.

Lemma exit_of_zero out : exit_status (exit_of out) = 0%Z ↔ out = inr true.
Proof. by destruct out as [x|[|]]. Qed.

Lemma exit_of_bit out : exit_status (exit_of out) = 0%Z ∨ exit_status (exit_of out) = 1%Z.
Proof. destruct out as [x|[|]]; auto. Qed.

(** X15.  The process of [migrate_cs125_current.py] exits with status 0 or
    1, and with 0 exactly when a line was read at the prompt and either it
    was not [y] or [Y] (the migration is cancelled) or the migration
    returned [True].  In particular it exits with 1 at the end of input,
    when the migration returns [False], and when the migration raises. *)
Theorem exit_status_of_cs125_current stdin e d :
  (status (main_cs125_current stdin e) d = 0%Z ↔
   ∃ r, stdin = Some r ∧
        (r ≠ "y" ∧ r ≠ "Y" ∨ (run (migrate_cs125_current e) d).1 = inr true)) ∧
  (status (main_cs125_current stdin e) d = 0%Z ∨
   status (main_cs125_current stdin e) d = 1%Z).
Proof.
  unfold status.
  destruct stdin as [r|].
  - destruct (decide (lower r = "y")) as [Hy|Hn].
    + destruct (main_cs125_current_confirmed e d r Hy) as [-> _].
      split; [|apply exit_of_bit]. rewrite exit_of_zero. split.
      * intros H. exists r. auto.
      * intros (r' & [= <-] & [[H1 H2]|H]); [|done].
        apply lower_y in Hy as [|]; done.
    + destruct (main_cs125_current_unconfirmed e d (Some r)) as (-> & _).
      { by intros r' [= <-]. }
      split; [|by left]. split; [|done]. intros _. exists r. split; [done|].
      left. rewrite lower_y in Hn. split; intros ->; apply Hn; auto.
  - destruct (main_cs125_current_unconfirmed e d None) as (-> & _); [done|].
    split; [|by right]. split; [done|]. by intros (r & ? & _).
Qed.

(** X16.  The process of [migrate_images.py] exits with status 0 or 1, and
    with 0 exactly when a line was read at the prompt and either it was not
    [y] or [Y] (the migration is cancelled) or the migration returned
    [True]. *)
Theorem exit_status_of_images stdin e d :
  (status (main_images stdin e) d = 0%Z ↔
   ∃ r, stdin = Some r ∧
        (r ≠ "y" ∧ r ≠ "Y" ∨ (run (migrate_images e) d).1 = inr true)) ∧
  (status (main_images stdin e) d = 0%Z ∨ status (main_images stdin e) d = 1%Z).
Proof.
  unfold status.
  destruct stdin as [r|].
  - destruct (decide (lower r = "y")) as [Hy|Hn].
    + destruct (main_images_confirmed e d r Hy) as [-> _].
      split; [|apply exit_of_bit]. rewrite exit_of_zero. split.
      * intros H. exists r. auto.
      * intros (r' & [= <-] & [[H1 H2]|H]); [|done].
        apply lower_y in Hy as [|]; done.
    + destruct (main_images_unconfirmed e d (Some r)) as (-> & _).
      { by intros r' [= <-]. }
      split; [|by left]. split; [|done]. intros _. exists r. split; [done|].
      left. rewrite lower_y in Hn. split; intros ->; apply Hn; auto.
  - destruct (main_images_unconfirmed e d None) as (-> & _); [done|].
    split; [|by right]. split; [done|]. by intros (r & ? & _).
Qed.

(** X17.  The process of [migrate_power_save_mode.py] exits with status 0
    or 1.  When its first argument is [-y] it does not read the prompt's
    answer and exits with 0 exactly when the migration returned [True];
    otherwise it exits with 0 exactly when a line was read and either it
    was not [y] or [Y] or the migration returned [True]. *)
Theorem exit_status_of_power_save_mode argv stdin e d :
  (status (main_power_save_mode argv stdin e) d = 0%Z ↔
   (run (migrate_power_save_mode e) d).1 = inr true ∧
     (argv !! 1 = Some "-y" ∨ ∃ r, stdin = Some r)
   ∨ argv !! 1 ≠ Some "-y" ∧ ∃ r, stdin = Some r ∧ r ≠ "y" ∧ r ≠ "Y") ∧
  (status (main_power_save_mode argv stdin e) d = 0%Z ∨
   status (main_power_save_mode argv stdin e) d = 1%Z).
Proof.
  unfold status. rewrite <- auto_confirm_true.
  destruct (auto_confirm argv) eqn:Ha.
  - rewrite (main_power_save_mode_going e d argv stdin) by auto.
    split; [|apply exit_of_bit]. rewrite exit_of_zero. split.
    + intros H. left. auto.
    + by intros [[? _]|[? _]].
  - destruct stdin as [r|].
    + destruct (decide (lower r = "y")) as [Hy|Hn].
      * rewrite (main_power_save_mode_going e d argv (Some r)) by eauto.
        split; [|apply exit_of_bit]. rewrite exit_of_zero. split.
        -- intros H. left. eauto.
        -- intros [[? _]|(_ & r' & [= <-] & H1 & H2)]; [done|].
           apply lower_y in Hy as [|]; done.
      * destruct (main_power_save_mode_unconfirmed e d argv (Some r) Ha) as (-> & _).
        { by intros r' [= <-]. }
        split; [|by left]. split; [|done]. intros _. right. split; [done|].
        exists r. split; [done|].
        rewrite lower_y in Hn. split; intros ->; apply Hn; auto.
    + destruct (main_power_save_mode_unconfirmed e d argv None Ha) as (-> & _); [done|].
      split; [|by right]. split; [done|].
      intros [(_ & [?|[r ?]])|(_ & r & ? & _)]; done.
Qed.

(** X18.  Unless the operator answers [y] or [Y] (or, for
    [migrate_power_save_mode.py], the first argument is [-y]), none of the
    three processes opens the database: all it does is print and read the
    prompt's answer, and the database file is left as it was.  This covers
    every other answer, [yes] included, and the end of input. *)
Theorem unconfirmed_run_never_connects argv stdin e d :
  (∀ r, stdin = Some r → r ≠ "y" ∧ r ≠ "Y") →
  (disk (run (main_cs125_current stdin e) d).2 = d ∧
   chatter (trace (run (main_cs125_current stdin e) d).2)) ∧
  (disk (run (main_images stdin e) d).2 = d ∧
   chatter (trace (run (main_images stdin e) d).2)) ∧
  (argv !! 1 ≠ Some "-y" →
   disk (run (main_power_save_mode argv stdin e) d).2 = d ∧
   chatter (trace (run (main_power_save_mode argv stdin e) d).2)).
Proof.
  intros Hn.
  assert (∀ r, stdin = Some r → lower r ≠ "y") as Hn'.
  { intros r Hr. rewrite lower_y. destruct (Hn r Hr). by intros [|]. }
  split; [|split].
  - by destruct (main_cs125_current_unconfirmed e d stdin Hn') as (_ & ? & ?).
  - by destruct (main_images_unconfirmed e d stdin Hn') as (_ & ? & ?).
  - intros Ha. rewrite <- auto_confirm_true in Ha. apply not_true_is_false in Ha.
    by destruct (main_power_save_mode_unconfirmed e d argv stdin Ha Hn') as (_ & ? & ?).
Qed.

(** X18, witness: the answer [yes]. *)
Lemma unconfirmed_run_never_connects_witness :
  disk (run (main_images (Some "yes") calm) gallery).2 = gallery.
Proof.
  refine (proj1 (proj1 (proj2
    (unconfirmed_run_never_connects [] (Some "yes") calm gallery _)))).
  intros r [= <-]. split; discriminate.
Defined.
